(** * ACWhisk service worker: caching strategies, lifecycle and maintenance

    A shallow embedding of the service worker script of the ACWhisk web
    application (the script registered as [/sw.js]): its request classifier,
    the four strategy handlers, the install / activate lifecycle handlers,
    the background-sync sweep and the message protocol.

    The worker is event driven.  Every handler is modelled as a computation
    in a state monad over a [World] that holds the origin's CacheStorage and
    the trace of the effects performed so far; a handler runs to completion
    before the next event is delivered.  The network, the clock, the
    [Date] parser and the [Request] constructor belong to the platform and
    are parameters of the development. *)

From Stdlib Require Import ZArith Ascii.
From stdpp Require Import gmap strings list fin_maps.

Local Open Scope Z_scope.

(** ** Strings *)

Module Str.

(** The double-quote character, code 34. *)
Definition dquote : ascii := "034"%char.
Definition dq : string := String dquote "".

Definition toLowerCase_char (c : ascii) : ascii :=
  let n := Ascii.N_of_ascii c in
  if ((65 <=? n) && (n <=? 90))%N then Ascii.ascii_of_N (n + 32) else c.

Fixpoint toLowerCase (s : string) : string :=
  match s with
  | EmptyString => EmptyString
  | String c r => String (toLowerCase_char c) (toLowerCase r)
  end.

Fixpoint startsWith (s p : string) : bool :=
  match p, s with
  | EmptyString, _ => true
  | String a p', String b s' => if Ascii.eqb a b then startsWith s' p' else false
  | String _ _, EmptyString => false
  end.

(** [s.includes(search)] *)
Fixpoint includes (s search : string) : bool :=
  startsWith s search ||
  match s with
  | EmptyString => false
  | String _ r => includes r search
  end.

Fixpoint drop (n : nat) (s : string) : string :=
  match n, s with
  | O, _ => s
  | S n', String _ r => drop n' r
  | S _, EmptyString => EmptyString
  end.

Definition truthy (s : string) : bool :=
  match s with EmptyString => false | String _ _ => true end.

Fixpoint join (sep : string) (l : list string) : string :=
  match l with
  | [] => ""
  | [x] => x
  | x :: r => x +:+ sep +:+ join sep r
  end.

(** [s.split(sep)] for a one-character separator. *)
Fixpoint split_on (sep : ascii) (cur : string) (s : string) : list string :=
  match s with
  | EmptyString => [cur]
  | String c r =>
      if Ascii.eqb c sep then cur :: split_on sep "" r
      else split_on sep (cur +:+ String c "") r
  end.

Definition split (sep : ascii) (s : string) : list string := split_on sep "" s.

Definition is_space (c : ascii) : bool :=
  let n := Ascii.N_of_ascii c in ((n =? 32) || (n =? 9))%N.

Fixpoint trimStart (s : string) : string :=
  match s with
  | String c r => if is_space c then trimStart r else s
  | EmptyString => EmptyString
  end.

Fixpoint trimEnd (s : string) : string :=
  match s with
  | EmptyString => EmptyString
  | String c r =>
      match trimEnd r with
      | EmptyString => if is_space c then EmptyString else String c EmptyString
      | t => String c t
      end
  end.

Definition trim (s : string) : string := trimEnd (trimStart s).

End Str.

(** ** Configuration constants *)

Definition CACHE_NAME : string := "acwhisk-v1.0.3".
Definition IMAGE_CACHE_NAME : string := "acwhisk-images-v1.0.3".
Definition STATIC_CACHE : string := "acwhisk-static-v1.0.3".
Definition DYNAMIC_CACHE : string := "acwhisk-dynamic-v1.0.3".

Definition STATIC_ASSETS : list string :=
  [ "/";
    "/App.tsx";
    "/styles/globals.css";
    "/components/ui/button.tsx";
    "/components/ui/card.tsx";
    "/components/ui/avatar.tsx";
    "/components/figma/ImageWithFallback.tsx" ].

(** The four patterns are plain substrings: a pattern [/\/api\/recipes/]
    tests positive exactly when the path includes ["/api/recipes"]. *)
Definition API_CACHE_PATTERNS : list string :=
  [ "/api/recipes"; "/api/posts"; "/api/users"; "/api/auth" ].

(** ** Requests *)

Record URL := {
  href : string;
  protocol : string;
  hostname : string;
  pathname : string
}.

Record Request := {
  method : string;
  url : URL;
  destination : string;
  req_headers : list (string * string)
}.

(** [new Request(request, { headers })] as built by [fetch(request, init)]. *)
Definition with_headers (request : Request) (h : list (string * string)) : Request :=
  {| method := method request; url := url request;
     destination := destination request; req_headers := h |}.

(** ** Headers, plain objects and responses *)

(** A [Headers] instance: its header list, names in lower case. *)
Definition Headers := list (string * string).

Fixpoint Headers_values (h : Headers) (name : string) : list string :=
  match h with
  | [] => []
  | (k, v) :: r =>
      if String.eqb k name then v :: Headers_values r name else Headers_values r name
  end.

(** [headers.get(name)]: [None] is JavaScript's [null]. *)
Definition Headers_get (h : Headers) (name : string) : option string :=
  match Headers_values h (Str.toLowerCase name) with
  | [] => None
  | vs => Some (Str.join ", " vs)
  end.

Definition Headers_has (h : Headers) (name : string) : bool :=
  match Headers_values h (Str.toLowerCase name) with [] => false | _ => true end.

(** The objects that reach an object spread or a [headers] initialiser in the
    worker: an object literal with its own properties in insertion order, or
    a [Headers] instance, whose entries live in an internal slot. *)
Inductive JSObject :=
| PlainObject (props : list (string * string))
| HeadersInstance (h : Headers).

(** Own enumerable string-keyed properties, which is what [{...x}] copies. *)
Definition own_enumerable (x : JSObject) : list (string * string) :=
  match x with
  | PlainObject props => props
  | HeadersInstance _ => []
  end.

Fixpoint obj_set (k v : string) (o : list (string * string)) : list (string * string) :=
  match o with
  | [] => [(k, v)]
  | (k', v') :: r => if String.eqb k k' then (k, v) :: r else (k', v') :: obj_set k v r
  end.

(** The literal [{ ...x, k1: v1, ..., kn: vn }]. *)
Definition object_literal (x : JSObject) (props : list (string * string))
  : list (string * string) :=
  fold_left (fun o kv => obj_set kv.1 kv.2 o) (own_enumerable x ++ props) [].

(** [new Headers(init)] for a plain object [init]. *)
Definition Headers_of_object (o : list (string * string)) : Headers :=
  map (fun kv => (Str.toLowerCase kv.1, kv.2)) o.

Record Response := {
  status : Z;
  statusText : string;
  headers : Headers;
  body : string
}.

Inductive BodyInit :=
| TextBody (s : string)      (* a string *)
| StreamBody (s : string).   (* a ReadableStream delivering [s] *)

Definition body_content (b : BodyInit) : string :=
  match b with TextBody s | StreamBody s => s end.

Record ResponseInit := {
  init_status : option Z;
  init_statusText : option string;
  init_headers : list (string * string)
}.

(** [new Response(body, init)].  A string body gets a default content type
    when the initialiser names none; a stream body gets none.  The worker
    only ever passes the statuses 200 and 503, so the constructor's
    [RangeError] is out of reach. *)
Definition new_Response (b : BodyInit) (init : ResponseInit) : Response :=
  let h := Headers_of_object (init_headers init) in
  {| status := default 200 (init_status init);
     statusText := default "" (init_statusText init);
     headers :=
       match b with
       | TextBody _ =>
           if Headers_has h "Content-Type" then h
           else h ++ [("content-type", "text/plain;charset=UTF-8")]
       | StreamBody _ => h
       end;
     body := body_content b |}.

(** ** JSON *)

#[warnings="-register-all"]
Inductive JSON :=
| JString (s : string)
| JBool (b : bool)
| JObject (fields : list (string * JSON)).

Module Json.

Definition hex_digit (n : N) : ascii :=
  Ascii.ascii_of_N (if (n <? 10)%N then 48 + n else 87 + n).

(** Escape of one character inside a JSON string literal. *)
Definition escape_char (c : ascii) : string :=
  let n := Ascii.N_of_ascii c in
  if (n =? 34)%N then String "\" Str.dq
  else if (n =? 92)%N then "\\"
  else if (n =? 8)%N then "\b"
  else if (n =? 12)%N then "\f"
  else if (n =? 10)%N then "\n"
  else if (n =? 13)%N then "\r"
  else if (n =? 9)%N then "\t"
  else if (n <? 32)%N then
    "\u00" +:+ String (hex_digit (n / 16)) (String (hex_digit (n mod 16)) "")
  else String c "".

Fixpoint escape (s : string) : string :=
  match s with
  | EmptyString => ""
  | String c r => escape_char c +:+ escape r
  end.

Definition quote (s : string) : string := Str.dq +:+ escape s +:+ Str.dq.

(** [JSON.stringify(value)] without indentation. *)
Fixpoint stringify (j : JSON) : string :=
  match j with
  | JString s => quote s
  | JBool b => if b then "true" else "false"
  | JObject fields =>
      "{" +:+
      Str.join ","
        ((fix members (l : list (string * JSON)) : list string :=
            match l with
            | [] => []
            | (k, v) :: r => (quote k +:+ ":" +:+ stringify v) :: members r
            end) fields)
      +:+ "}"
  end.

(** Property read [obj.k]. *)
Fixpoint get (k : string) (fields : list (string * JSON)) : option JSON :=
  match fields with
  | [] => None
  | (k', v) :: r => if String.eqb k k' then Some v else get k r
  end.

End Json.

(** ** Synthesised bodies *)

(** The offline page of [handlePageRequest]; every double quote of the
    template literal is spelled [Str.dq]. *)
Definition OFFLINE_PAGE : string :=
  "<!DOCTYPE html>
        <html>
          <head>
            <title>ACWhisk - Offline</title>
            <meta charset="
    +:+ Str.dq +:+ "utf-8"
    +:+ Str.dq +:+ ">
            <meta name="
    +:+ Str.dq +:+ "viewport"
    +:+ Str.dq +:+ " content="
    +:+ Str.dq +:+ "width=device-width, initial-scale=1"
    +:+ Str.dq +:+ ">
            <style>
              body {
                font-family: -apple-system, BlinkMacSystemFont, 'Segoe UI', sans-serif;
                background: linear-gradient(135deg, #E0EAFC 0%, #CFDEF3 100%);
                margin: 0;
                padding: 2rem;
                min-height: 100vh;
                display: flex;
                align-items: center;
                justify-content: center;
              }
              .container {
                background: rgba(255, 255, 255, 0.4);
                backdrop-filter: blur(16px);
                border-radius: 1.5rem;
                padding: 3rem;
                text-align: center;
                max-width: 400px;
                border: 1px solid rgba(255, 255, 255, 0.18);
                box-shadow: 0 8px 32px rgba(31, 38, 135, 0.15);
              }
              h1 { color: #2D3748; margin-bottom: 1rem; }
              p { color: #4A5568; margin-bottom: 2rem; }
              .offline-icon { font-size: 4rem; margin-bottom: 1rem; }
              .btn {
                background: linear-gradient(135deg, #A18CFF 0%, #4FACFE 100%);
                color: white;
                border: none;
                padding: 0.75rem 1.5rem;
                border-radius: 2rem;
                cursor: pointer;
                font-weight: 500;
              }
            </style>
          </head>
          <body>
            <div class="
    +:+ Str.dq +:+ "container"
    +:+ Str.dq +:+ ">
              <div class="
    +:+ Str.dq +:+ "offline-icon"
    +:+ Str.dq +:+ ">üç≥</div>
              <h1>ACWhisk - Offline</h1>
              <p>You're currently offline. Please check your internet connection and try again.</p>
              <button onclick="
    +:+ Str.dq +:+ "window.location.reload()"
    +:+ Str.dq +:+ " class="
    +:+ Str.dq +:+ "btn"
    +:+ Str.dq +:+ ">
                Try Again
              </button>
            </div>
          </body>
        </html>".

(** The placeholder graphic of [handleOptimizedImageRequest]. *)
Definition PLACEHOLDER_SVG : string :=
  "<svg width="
    +:+ Str.dq +:+ "400"
    +:+ Str.dq +:+ " height="
    +:+ Str.dq +:+ "300"
    +:+ Str.dq +:+ " xmlns="
    +:+ Str.dq +:+ "http://www.w3.org/2000/svg"
    +:+ Str.dq +:+ ">
        <defs>
          <linearGradient id="
    +:+ Str.dq +:+ "grad"
    +:+ Str.dq +:+ " x1="
    +:+ Str.dq +:+ "0%"
    +:+ Str.dq +:+ " y1="
    +:+ Str.dq +:+ "0%"
    +:+ Str.dq +:+ " x2="
    +:+ Str.dq +:+ "100%"
    +:+ Str.dq +:+ " y2="
    +:+ Str.dq +:+ "100%"
    +:+ Str.dq +:+ ">
            <stop offset="
    +:+ Str.dq +:+ "0%"
    +:+ Str.dq +:+ " style="
    +:+ Str.dq +:+ "stop-color:#e2e8f0;stop-opacity:1"
    +:+ Str.dq +:+ " />
            <stop offset="
    +:+ Str.dq +:+ "100%"
    +:+ Str.dq +:+ " style="
    +:+ Str.dq +:+ "stop-color:#cbd5e1;stop-opacity:1"
    +:+ Str.dq +:+ " />
          </linearGradient>
        </defs>
        <rect width="
    +:+ Str.dq +:+ "400"
    +:+ Str.dq +:+ " height="
    +:+ Str.dq +:+ "300"
    +:+ Str.dq +:+ " fill="
    +:+ Str.dq +:+ "url(#grad)"
    +:+ Str.dq +:+ "/>
        <g transform="
    +:+ Str.dq +:+ "translate(200,150)"
    +:+ Str.dq +:+ ">
          <circle r="
    +:+ Str.dq +:+ "30"
    +:+ Str.dq +:+ " fill="
    +:+ Str.dq +:+ "#94a3b8"
    +:+ Str.dq +:+ " opacity="
    +:+ Str.dq +:+ "0.5"
    +:+ Str.dq +:+ "/>
          <text y="
    +:+ Str.dq +:+ "5"
    +:+ Str.dq +:+ " text-anchor="
    +:+ Str.dq +:+ "middle"
    +:+ Str.dq +:+ " fill="
    +:+ Str.dq +:+ "#64748b"
    +:+ Str.dq +:+ " font-family="
    +:+ Str.dq +:+ "Arial"
    +:+ Str.dq +:+ " font-size="
    +:+ Str.dq +:+ "12"
    +:+ Str.dq +:+ ">
            Image unavailable
          </text>
        </g>
      </svg>".

(** ** Cache storage *)

(** A cache maps the URL of a stored GET request to the stored response.
    The origin's CacheStorage lists its caches by name in creation order,
    the order in which [caches.match] consults them. *)
Abbreviation Cache := (gmap string Response).
Abbreviation CacheStorage := (list (string * gmap string Response)).

Module Storage.

Fixpoint find (name : string) (cs : CacheStorage) : option Cache :=
  match cs with
  | [] => None
  | (n, c) :: r => if decide (n = name) then Some c else find name r
  end.

(** [caches.open(name)] creates the cache when it is missing. *)
Definition open (name : string) (cs : CacheStorage) : CacheStorage :=
  match find name cs with
  | Some _ => cs
  | None => cs ++ [(name, ∅)]
  end.

(** [caches.delete(name)] *)
Definition delete (name : string) (cs : CacheStorage) : CacheStorage :=
  filter (fun p => p.1 ≠ name) cs.

(** [caches.keys()] *)
Definition keys (cs : CacheStorage) : list string := cs.*1.

(** A write through the handle of the cache called [name]. *)
Fixpoint update (name : string) (f : Cache → Cache) (cs : CacheStorage) : CacheStorage :=
  match cs with
  | [] => []
  | (n, c) :: r =>
      if decide (n = name) then (n, f c) :: r else (n, c) :: update name f r
  end.

(** [caches.match]: the first cache, in creation order, that has the key. *)
Fixpoint match_any (key : string) (cs : CacheStorage) : option Response :=
  match cs with
  | [] => None
  | (_, c) :: r =>
      match c !! key with
      | Some x => Some x
      | None => match_any key r
      end
  end.

(** Entries of the cache called [name]; none when there is no such cache. *)
Definition entries (name : string) (cs : CacheStorage) : Cache :=
  default ∅ (find name cs).

End Storage.

(** ** The world and its monad *)

Inductive Message :=
| SYNC_COMPLETE (timestamp : Z)                 (* { type: 'SYNC_COMPLETE', timestamp } *)
| Success (success : bool)                      (* { success } *)
| CacheSize (dynamicCacheSize imageCacheSize totalSize : nat).

Inductive Target :=
| ToClient (id : string)
| ToPort (id : string).

Inductive Effect :=
| CachesOpen (name : string)
| CachesDelete (name : string)
| CachesKeys
| CachesMatch (key : string)
| CacheMatch (name key : string)
| CachePut (name key : string)
| CacheAddAll (name : string) (urls : list string)
| CacheKeys (name : string)
| CacheDelete (name key : string)
| Fetch (key : string)
| SkipWaiting
| ClientsClaim
| ClientsMatchAll
| PostMessage (to : Target) (m : Message).

(** The effects that read or write a cache partition. *)
Definition touches_cache (e : Effect) : bool :=
  match e with
  | CachesOpen _ | CachesDelete _ | CachesKeys | CachesMatch _
  | CacheMatch _ _ | CachePut _ _ | CacheAddAll _ _ | CacheKeys _
  | CacheDelete _ _ => true
  | Fetch _ | SkipWaiting | ClientsClaim | ClientsMatchAll | PostMessage _ _ => false
  end.

Definition is_fetch (e : Effect) : bool :=
  match e with Fetch _ => true | _ => false end.

(** The network-call counter of a trace. *)
Definition network_calls (t : list Effect) : nat :=
  length (filter (fun e => is_fetch e = true) t).

Record World := {
  caches : CacheStorage;
  clients : list string;   (* what [clients.matchAll()] answers *)
  ticks : nat;             (* readings of the clock taken so far *)
  trace : list Effect      (* effects performed so far, oldest first *)
}.

Definition W (A : Type) : Type := World → A * World.

#[global] Instance W_ret : MRet W := fun A a w => (a, w).
#[global] Instance W_bind : MBind W :=
  fun A B f m w => match m w with (a, w') => f a w' end.

Definition run {A} (m : W A) (w : World) : World := (m w).2.
Definition result {A} (m : W A) (w : World) : A := (m w).1.

Definition get_world : W World := fun w => (w, w).

Definition emit (e : Effect) : W () := fun w =>
  ((), {| caches := caches w; clients := clients w; ticks := ticks w;
          trace := trace w ++ [e] |}).

Definition modify_caches (f : CacheStorage → CacheStorage) : W () := fun w =>
  ((), {| caches := f (caches w); clients := clients w; ticks := ticks w;
          trace := trace w |}).

Definition tick : W nat := fun w =>
  (ticks w, {| caches := caches w; clients := clients w; ticks := S (ticks w);
               trace := trace w |}).

Definition skip : W () := mret ().

Fixpoint forEach {A} (l : list A) (f : A → W ()) : W () :=
  match l with
  | [] => skip
  | x :: r => f x;; forEach r f
  end.

(** ** Platform operations *)

Definition is_GET (request : Request) : bool := String.eqb (method request) "GET".

Definition is_http (u : URL) : bool :=
  String.eqb (protocol u) "http:" || String.eqb (protocol u) "https:".

(** [Vary: *] among the comma-separated field values of a response. *)
Definition vary_star (response : Response) : bool :=
  match Headers_get (headers response) "vary" with
  | None => false
  | Some v => existsb (fun f => String.eqb (Str.trim f) "*") (Str.split "," v)
  end.

(** [cache.put] rejects with a [TypeError] unless the request is an http(s)
    GET and the response is neither partial content nor [Vary: *].  Quota
    errors and consumed bodies are outside the model. *)
Definition storable (request : Request) (response : Response) : bool :=
  is_GET request && is_http (url request) &&
  negb (status response =? 206) && negb (vary_star response).

(** [response.ok] *)
Definition ok_status (response : Response) : bool :=
  (200 <=? status response) && (status response <=? 299).

Definition caches_open (name : string) : W () :=
  emit (CachesOpen name);; modify_caches (Storage.open name).

Definition caches_delete (name : string) : W () :=
  emit (CachesDelete name);; modify_caches (Storage.delete name).

Definition caches_keys : W (list string) :=
  emit CachesKeys;; w ← get_world; mret (Storage.keys (caches w)).

(** [caches.match(request)]; a request that is not a GET matches nothing. *)
Definition caches_match (request : Request) : W (option Response) :=
  emit (CachesMatch (href (url request)));;
  w ← get_world;
  mret (if is_GET request then Storage.match_any (href (url request)) (caches w)
        else None).

Definition Cache_lookup (name key : string) : W (option Response) :=
  emit (CacheMatch name key);;
  w ← get_world;
  mret (Storage.entries name (caches w) !! key).

(** [cache.match(request)] on the cache opened as [name]. *)
Definition Cache_match (name : string) (request : Request) : W (option Response) :=
  r ← Cache_lookup name (href (url request));
  mret (if is_GET request then r else None).

(** [cache.put(request, response)]; answers whether the promise fulfilled. *)
Definition Cache_put (name : string) (request : Request) (response : Response) : W bool :=
  emit (CachePut name (href (url request)));;
  if storable request response
  then modify_caches (Storage.update name (insert (href (url request)) response));;
       mret true
  else mret false.

(** [cache.keys()], each stored request standing for its URL. *)
Definition Cache_keys (name : string) : W (list string) :=
  emit (CacheKeys name);;
  w ← get_world;
  mret (map_to_list (Storage.entries name (caches w))).*1.

(** [cache.delete(request)] for a request obtained from [cache.keys()]. *)
Definition Cache_delete (name key : string) : W () :=
  emit (CacheDelete name key);;
  modify_caches (Storage.update name (delete key)).

Definition skipWaiting : W () := emit SkipWaiting.
Definition clients_claim : W () := emit ClientsClaim.

Definition clients_matchAll : W (list string) :=
  emit ClientsMatchAll;; w ← get_world; mret (clients w).

Definition postMessage (to : Target) (m : Message) : W () := emit (PostMessage to m).

(** ** The worker *)

Section Worker.

(** The network as seen by [fetch]: [None] is a rejected promise. *)
Variable network : Request → option Response.
(** Successive readings of [Date.now()], in milliseconds. *)
Variable clock : nat → Z.
(** [new Date(s).getTime()]; [None] is [NaN]. *)
Variable Date_getTime : string → option Z.
(** The request that [fetch(url)], [cache.add(url)] and [cache.put(url, _)]
    build from a URL string, resolved against the worker's location. *)
Variable mkRequest : string → Request.

Definition fetch (request : Request) : W (option Response) :=
  emit (Fetch (href (url request)));; mret (network request).

Definition Date_now : W Z := n ← tick; mret (clock n).

(** [cache.addAll(urls)]: every request is fetched; the cache is written
    only if every response is ok and storable, otherwise the promise
    rejects and nothing is stored. *)
Definition addAll_entry (u : string) : option (string * Response) :=
  match network (mkRequest u) with
  | Some r =>
      if ok_status r && storable (mkRequest u) r
      then Some (href (url (mkRequest u)), r) else None
  | None => None
  end.

Definition put_all (es : list (string * Response)) (c : Cache) : Cache :=
  fold_left (fun c e => <[e.1 := e.2]> c) es c.

Definition Cache_addAll (name : string) (urls : list string) : W bool :=
  emit (CacheAddAll name urls);;
  forEach urls (fun u => emit (Fetch (href (url (mkRequest u)))));;
  match mapM addAll_entry urls with
  | Some es => modify_caches (Storage.update name (put_all es));; mret true
  | None => mret false
  end.

(** *** Request classification *)

Definition IMAGE_EXTENSIONS : list string :=
  [ "jpg"; "jpeg"; "png"; "gif"; "webp"; "svg" ].

Definition line_terminator (c : ascii) : bool :=
  let n := Ascii.N_of_ascii c in ((n =? 10) || (n =? 13))%N.

Fixpoint no_line_terminator (s : string) : bool :=
  match s with
  | EmptyString => true
  | String c r => negb (line_terminator c) && no_line_terminator r
  end.

(** The tail of the extension pattern: the end of the string, or a question
    mark followed by characters other than line terminators up to the end. *)
Definition query_to_end (t : string) : bool :=
  match t with
  | EmptyString => true
  | String c r => Ascii.eqb c "?" && no_line_terminator r
  end.

(** One of the six extensions, ignoring case, then the tail, at the head of [t]. *)
Definition extension_at (t : string) : bool :=
  existsb
    (fun e => Str.startsWith (Str.toLowerCase t) e &&
              query_to_end (Str.drop (String.length e) t))
    IMAGE_EXTENSIONS.

(** The extension pattern of [isImageRequest] tested on [s]: a dot, an
    extension and the tail, starting anywhere in [s]. *)
Fixpoint image_extension_test (s : string) : bool :=
  match s with
  | EmptyString => false
  | String c r => (Ascii.eqb c "." && extension_at r) || image_extension_test r
  end.

Definition isImageRequest (u : URL) : bool :=
  image_extension_test (pathname u) ||
  Str.includes (pathname u) "/upload/" ||
  Str.includes (hostname u) "supabase.co".

Definition isAPIRequest (request : Request) : bool :=
  existsb (fun pattern => Str.includes (pathname (url request)) pattern)
          API_CACHE_PATTERNS.

Inductive Strategy :=
| PageStrategy      (* handlePageRequest *)
| ImageStrategy     (* handleOptimizedImageRequest *)
| APIStrategy       (* handleAPIRequest *)
| AssetStrategy.    (* handleAssetRequest *)

(** The body of the fetch listener up to its [event.respondWith] call:
    [None] when the listener returns without responding. *)
Definition fetch_dispatch (request : Request) : option Strategy :=
  let u := url request in
  if negb (String.eqb (method request) "GET") then None
  else if String.eqb (protocol u) "chrome-extension:" then None
  else if Str.includes (hostname u) "supabase.co" && Str.includes (pathname u) "/auth/"
  then None
  else if String.eqb (destination request) "document" then Some PageStrategy
  else if String.eqb (destination request) "image" || isImageRequest u
  then Some ImageStrategy
  else if isAPIRequest request then Some APIStrategy
  else Some AssetStrategy.

(** *** Strategy handlers *)

(** What the promise given to [respondWith] settles to. *)
Inductive Outcome :=
| Resolved (response : Response)
| Rejected.

Definition offline_page : Response :=
  new_Response (TextBody OFFLINE_PAGE)
    {| init_status := Some 200; init_statusText := None;
       init_headers := [("Content-Type", "text/html")] |}.

Definition handlePageRequest (request : Request) : W Outcome :=
  fetched ← fetch request;
  match fetched with
  | Some networkResponse =>
      (if status networkResponse =? 200
       then caches_open DYNAMIC_CACHE;;
            _ ← Cache_put DYNAMIC_CACHE request networkResponse; skip
       else skip);;
      mret (Resolved networkResponse)
  | None =>
      cachedResponse ← caches_match request;
      match cachedResponse with
      | Some cached => mret (Resolved cached)
      | None => mret (Resolved offline_page)
      end
  end.

Definition placeholder_image : Response :=
  new_Response (TextBody PLACEHOLDER_SVG)
    {| init_status := None; init_statusText := None;
       init_headers := [("Content-Type", "image/svg+xml");
                        ("Cache-Control", "no-cache")] |}.

Definition optimizedResponse (response : Response) : Response :=
  new_Response (StreamBody (body response))
    {| init_status := Some (status response);
       init_statusText := Some (statusText response);
       init_headers :=
         object_literal (HeadersInstance (headers response))
           [("Cache-Control", "public, max-age=604800");
            ("Service-Worker-Cached", "true");
            ("X-Optimized", "true")] |}.

(** The request sent by [fetch(request, { headers })] in the image handler. *)
Definition image_fetch_request (request : Request) : Request :=
  with_headers request
    [("Cache-Control", "public, max-age=86400");
     ("Accept", "image/webp,image/avif,image/*,*/*;q=0.8")].

(** The [catch] block of [handleOptimizedImageRequest]. *)
Definition image_fallback (request : Request) : W Outcome :=
  caches_open IMAGE_CACHE_NAME;;
  cachedResponse ← Cache_match IMAGE_CACHE_NAME request;
  match cachedResponse with
  | Some cached => mret (Resolved cached)
  | None => mret (Resolved placeholder_image)
  end.

Definition handleOptimizedImageRequest (request : Request) : W Outcome :=
  caches_open IMAGE_CACHE_NAME;;
  cachedResponse ← Cache_match IMAGE_CACHE_NAME request;
  match cachedResponse with
  | Some cached => mret (Resolved cached)
  | None =>
      fetched ← fetch (image_fetch_request request);
      match fetched with
      | Some response =>
          if status response =? 200 then
            stored ← Cache_put IMAGE_CACHE_NAME request (optimizedResponse response);
            if stored : bool then mret (Resolved (optimizedResponse response))
            else image_fallback request
          else mret (Resolved response)
      | None => image_fallback request
      end
  end.

(** The body of the offline answer before [JSON.stringify]. *)
Definition OFFLINE_ERROR : list (string * JSON) :=
  [ ("error", JString "Network unavailable");
    ("message", JString "This request failed because you are offline. Please try again when you have an internet connection.");
    ("offline", JBool true) ].

Definition offline_error : Response :=
  new_Response (TextBody (Json.stringify (JObject OFFLINE_ERROR)))
    {| init_status := Some 503; init_statusText := None;
       init_headers := [("Content-Type", "application/json")] |}.

Definition handleAPIRequest (request : Request) : W Outcome :=
  fetched ← fetch request;
  match fetched with
  | Some networkResponse =>
      (if (status networkResponse =? 200) && is_GET request
       then caches_open DYNAMIC_CACHE;;
            _ ← Cache_put DYNAMIC_CACHE request networkResponse; skip
       else skip);;
      mret (Resolved networkResponse)
  | None =>
      cachedResponse ←
        (if is_GET request then caches_match request else mret None);
      match cachedResponse with
      | Some cached => mret (Resolved cached)
      | None => mret (Resolved offline_error)
      end
  end.

Definition handleAssetRequest (request : Request) : W Outcome :=
  cachedResponse ← caches_match request;
  match cachedResponse with
  | Some cached => mret (Resolved cached)
  | None =>
      fetched ← fetch request;
      match fetched with
      | Some networkResponse =>
          (if status networkResponse =? 200
           then caches_open DYNAMIC_CACHE;;
                _ ← Cache_put DYNAMIC_CACHE request networkResponse; skip
           else skip);;
          mret (Resolved networkResponse)
      | None => mret Rejected
      end
  end.

Definition run_strategy (s : Strategy) (request : Request) : W Outcome :=
  match s with
  | PageStrategy => handlePageRequest request
  | ImageStrategy => handleOptimizedImageRequest request
  | APIStrategy => handleAPIRequest request
  | AssetStrategy => handleAssetRequest request
  end.

(** The fetch listener: [None] when the request is left to the browser. *)
Definition on_fetch (request : Request) : W (option Outcome) :=
  match fetch_dispatch request with
  | None => mret None
  | Some s => o ← run_strategy s request; mret (Some o)
  end.

(** *** Lifecycle *)

(** The install listener.  Both [caches.open] calls are issued before either
    continuation runs; a rejection anywhere in the chain reaches the final
    [catch], which only logs. *)
Definition on_install : W () :=
  caches_open STATIC_CACHE;;
  caches_open IMAGE_CACHE_NAME;;
  cached ← Cache_addAll STATIC_CACHE STATIC_ASSETS;
  if cached : bool then skipWaiting else skip.

(** The test of the activate listener: the name is none of the three
    current partition names. *)
Definition is_stale (cacheName : string) : bool :=
  negb (String.eqb cacheName STATIC_CACHE) &&
  negb (String.eqb cacheName DYNAMIC_CACHE) &&
  negb (String.eqb cacheName IMAGE_CACHE_NAME).

Definition delete_if_stale (cacheName : string) : W () :=
  if is_stale cacheName then caches_delete cacheName else skip.

(** The activate listener. *)
Definition on_activate : W () :=
  cacheNames ← caches_keys;
  forEach cacheNames delete_if_stale;;
  clients_claim.

(** *** Background sync *)

Definition ONE_WEEK : Z := 7 * 24 * 60 * 60 * 1000.

(** [dateHeader && new Date(dateHeader).getTime() < oneWeekAgo]; a
    comparison with [NaN] is false. *)
Definition expired (oneWeekAgo : Z) (response : Response) : bool :=
  match Headers_get (headers response) "date" with
  | Some dateHeader =>
      Str.truthy dateHeader &&
      match Date_getTime dateHeader with
      | Some t => t <? oneWeekAgo
      | None => false
      end
  | None => false
  end.

Definition sweep_entry (oneWeekAgo : Z) (request : string) : W () :=
  found ← Cache_lookup IMAGE_CACHE_NAME request;
  match found with
  | Some response =>
      if expired oneWeekAgo response
      then Cache_delete IMAGE_CACHE_NAME request
      else skip
  | None => skip
  end.

Definition doBackgroundSync : W () :=
  caches_open IMAGE_CACHE_NAME;;
  requests ← Cache_keys IMAGE_CACHE_NAME;
  now ← Date_now;
  let oneWeekAgo := now - ONE_WEEK in
  forEach requests (sweep_entry oneWeekAgo);;
  open_clients ← clients_matchAll;
  forEach open_clients (fun client =>
    timestamp ← Date_now;
    postMessage (ToClient client) (SYNC_COMPLETE timestamp)).

(** The sync listener. *)
Definition on_sync (tag : string) : W () :=
  if String.eqb tag "background-sync" then doBackgroundSync else skip.

(** *** Messages from the page *)

Record Payload := {
  payload_url : option string;
  payload_urls : option (list string)
}.

Record MessageEvent := {
  data_type : string;
  data_payload : option Payload;
  ports : list string
}.

(** [event.ports[0].postMessage(m)]; without a port the access throws
    inside a promise continuation and nothing is sent. *)
Definition reply (event : MessageEvent) (m : Message) : W () :=
  match ports event with
  | port :: _ => postMessage (ToPort port) m
  | [] => skip
  end.

Definition preload_image (u : string) : W () :=
  fetched ← fetch (mkRequest u);
  match fetched with
  | Some response =>
      if status response =? 200
      then _ ← Cache_put IMAGE_CACHE_NAME (mkRequest u) response; skip
      else skip
  | None => skip
  end.

(** The message listener. *)
Definition on_message (event : MessageEvent) : W () :=
  let type := data_type event in
  if String.eqb type "SKIP_WAITING" then skipWaiting
  else if String.eqb type "CACHE_RECIPE" then
    match data_payload event with
    | Some payload =>
        match payload_url payload with
        | Some u =>
            if Str.truthy u
            then caches_open DYNAMIC_CACHE;;
                 _ ← Cache_addAll DYNAMIC_CACHE [u]; skip
            else skip
        | None => skip
        end
    | None => skip
    end
  else if String.eqb type "PRELOAD_IMAGES" then
    match data_payload event with
    | Some payload =>
        match payload_urls payload with
        | Some urls => caches_open IMAGE_CACHE_NAME;; forEach urls preload_image
        | None => skip
        end
    | None => skip
    end
  else if String.eqb type "CLEAR_CACHE" then
    caches_delete DYNAMIC_CACHE;;
    caches_delete IMAGE_CACHE_NAME;;
    reply event (Success true)
  else if String.eqb type "GET_CACHE_SIZE" then
    caches_open DYNAMIC_CACHE;;
    caches_open IMAGE_CACHE_NAME;;
    dynamicKeys ← Cache_keys DYNAMIC_CACHE;
    imageKeys ← Cache_keys IMAGE_CACHE_NAME;
    reply event (CacheSize (length dynamicKeys) (length imageKeys)
                           (length dynamicKeys + length imageKeys))
  else skip.

End Worker.

(** ** Events and reachable worlds *)

Inductive WorkerEvent :=
| InstallEvent
| ActivateEvent
| FetchEvent (request : Request)
| SyncEvent (tag : string)
| MessageReceived (event : MessageEvent).

(** One event handled to completion; the state of the network is the one
    met while the event is handled. *)
Definition handle_event (network : Request → option Response) (clock : nat → Z)
    (Date_getTime : string → option Z) (mkRequest : string → Request)
    (e : WorkerEvent) : W () :=
  match e with
  | InstallEvent => on_install network mkRequest
  | ActivateEvent => on_activate
  | FetchEvent request => _ ← on_fetch network request; skip
  | SyncEvent tag => on_sync clock Date_getTime tag
  | MessageReceived event => on_message network mkRequest event
  end.

(** The worlds the worker brings about from [w0], whatever the network does
    from one event to the next. *)
Inductive reachable (clock : nat → Z) (Date_getTime : string → option Z)
    (mkRequest : string → Request) (w0 : World) : World → Prop :=
| reachable_start : reachable clock Date_getTime mkRequest w0 w0
| reachable_event network e w :
    reachable clock Date_getTime mkRequest w0 w →
    reachable clock Date_getTime mkRequest w0
      (run (handle_event network clock Date_getTime mkRequest e) w).

(** The computation leaves the entries of the partition [name] as they were. *)
Definition preserves_partition (name : string) {A} (m : W A) : Prop :=
  ∀ w, Storage.entries name (caches (run m w)) = Storage.entries name (caches w).

(** The computation creates no partition under a name outside [names]. *)
Definition creates_only (names : list string) {A} (m : W A) : Prop :=
  ∀ w n, n ∈ Storage.keys (caches (run m w)) →
         n ∈ Storage.keys (caches w) ∨ n ∈ names.

(** The partition names of the current version. *)
Definition CURRENT_CACHES : list string :=
  [STATIC_CACHE; DYNAMIC_CACHE; IMAGE_CACHE_NAME].

(** Every key of the static partition is the URL of an asset of the manifest. *)
Definition static_within_manifest (mkRequest : string → Request) (w : World) : Prop :=
  ∀ key, is_Some (Storage.entries STATIC_CACHE (caches w) !! key) →
         ∃ u, u ∈ STATIC_ASSETS ∧ key = href (url (mkRequest u)).

(** ** The page side *)

(** The message posted by [cacheResource(url)] of the page's service worker
    manager; it is posted without a reply port. *)
Definition cacheResource_message (u : string) : MessageEvent :=
  {| data_type := "CACHE_RECIPE";
     data_payload := Some {| payload_url := Some u; payload_urls := None |};
     ports := [] |}.

(** A URL of a preload batch whose image is fetched with status 200 and
    accepted by the cache. *)
Definition preloadable (network : Request → option Response)
    (mkRequest : string → Request) (u : string) (r : Response) : Prop :=
  network (mkRequest u) = Some r ∧ status r = 200 ∧ storable (mkRequest u) r = true.

(** ** Push notifications *)






(** ** A concrete platform

    Requests, worlds and platform parameters on which the statements below
    are exercised. *)

Module Sample.

Definition get (proto host path dest : string) : Request :=
  {| method := "GET";
     url := {| href := proto +:+ "//" +:+ host +:+ path; protocol := proto;
               hostname := host; pathname := path |};
     destination := dest;
     req_headers := [] |}.

Definition api_request : Request := get "https:" "acwhisk.app" "/api/recipes" "".
Definition page_request : Request := get "https:" "acwhisk.app" "/" "document".
Definition image_request : Request := get "https:" "acwhisk.app" "/recipes.jpg" "image".

(** An extension-internal URL of a browser other than Chrome. *)
Definition moz_extension_request : Request :=
  get "moz-extension:" "0d7c2f6e-6a1b-4c55-9f0e-3a5b8f1c2d47" "/icons/badge.png" "image".

Definition chrome_extension_request : Request :=
  get "chrome-extension:" "cjpalhdlnbpafiamejdnhcphjbkeiagm" "/web_accessible/logo.png" "image".

(** Requests to the backend host: its authentication and its REST routes. *)
Definition backend_auth_request : Request :=
  get "https:" "xyzcompany.supabase.co" "/auth/v1/token" "".

Definition backend_rest_request : Request :=
  get "https:" "xyzcompany.supabase.co" "/rest/v1/recipes" "".

(** An API route that ends in an image extension. *)
Definition api_cover_request : Request :=
  get "https:" "acwhisk.app" "/api/recipes/7/cover.JPG" "".

Definition stylesheet_request : Request :=
  get "https:" "acwhisk.app" "/styles/globals.css" "style".

Definition post_request : Request :=
  {| method := "POST"; url := url api_request; destination := "";
     req_headers := [("Content-Type", "application/json")] |}.

Definition mkRequest (u : string) : Request := get "https:" "acwhisk.app" u "".

Definition offline : Request → option Response := fun _ => None.

Definition NEW_YEAR_2024 : string := "Mon, 01 Jan 2024 00:00:00 GMT".

(** A server that answers every request with a dated 200. *)
Definition response_to (request : Request) : Response :=
  {| status := 200; statusText := "OK";
     headers := [("content-type", "application/octet-stream");
                 ("date", NEW_YEAR_2024)];
     body := pathname (url request) |}.

Definition online : Request → option Response := fun request =>
  Some (response_to request).

Definition clock (n : nat) : Z := 1717200000000 + Z.of_nat n.

Definition Date_getTime (s : string) : option Z :=
  if String.eqb s NEW_YEAR_2024 then Some 1704067200000 else None.

Definition fresh : World :=
  {| caches := []; clients := ["tab-1"; "tab-2"]; ticks := 0; trace := [] |}.

(** A world left behind by an older worker version, with preloaded images. *)
Definition used : World :=
  {| caches :=
       [ ("acwhisk-static-v1.0.2", {[ "https://acwhisk.app/" := offline_page ]});
         (DYNAMIC_CACHE, {[ "https://acwhisk.app/api/posts" := offline_error ]});
         (IMAGE_CACHE_NAME,
          {[ "https://acwhisk.app/upload/a.png" :=
               {| status := 200; statusText := "OK";
                  headers := [("date", NEW_YEAR_2024)]; body := "a" |} ]}) ];
     clients := ["tab-1"; "tab-2"]; ticks := 0; trace := [] |}.

Definition clear_cache : MessageEvent :=
  {| data_type := "CLEAR_CACHE"; data_payload := None; ports := ["port-1"] |}.

Definition get_cache_size : MessageEvent :=
  {| data_type := "GET_CACHE_SIZE"; data_payload := None; ports := ["port-2"] |}.

Definition posts_request : Request := get "https:" "acwhisk.app" "/api/posts" "".

(** A server that has nothing: every answer is a 404. *)
Definition not_found_response : Response :=
  {| status := 404; statusText := "Not Found"; headers := []; body := "" |}.

Definition not_found : Request → option Response := fun _ => Some not_found_response.

(** A network on which one asset of the manifest cannot be fetched. *)
Definition flaky : Request → option Response := fun request =>
  if String.eqb (pathname (url request)) "/components/ui/card.tsx" then None
  else online request.

(** A world that holds an install-time copy of the start page. *)
Definition first_shell : Response :=
  {| status := 200; statusText := "OK"; headers := [];
     body := "shell of the first install" |}.

Definition installed : World :=
  {| caches :=
       [ (STATIC_CACHE, {[ "https://acwhisk.app/" := first_shell ]});
         (IMAGE_CACHE_NAME, ∅) ];
     clients := ["tab-1"]; ticks := 0; trace := [] |}.

(** A preload batch whose second URL cannot be fetched on [flaky]. *)
Definition preload_urls : list string :=
  ["/upload/a.png"; "/components/ui/card.tsx"; "/upload/b.png"].

Definition preload_payload : Payload :=
  {| payload_url := None; payload_urls := Some preload_urls |}.

Definition preload_images : MessageEvent :=
  {| data_type := "PRELOAD_IMAGES"; data_payload := Some preload_payload;
     ports := [] |}.

End Sample.

(** ** Reasoning about handlers *)

(** Unfolds the monad and the platform operations of a handler applied to a
    world, leaving the pure storage functions folded. *)
Ltac w_step :=
  cbv [result run mbind W_bind mret W_ret skip emit modify_caches get_world tick
       fetch Date_now caches_open caches_delete caches_keys caches_match
       Cache_lookup Cache_match Cache_put Cache_keys Cache_delete
       skipWaiting clients_claim clients_matchAll postMessage reply];
  cbn [fst snd caches trace ticks clients].

Module Storage_facts.

Lemma find_app name (cs1 cs2 : CacheStorage) :
  Storage.find name (cs1 ++ cs2) =
  match Storage.find name cs1 with
  | Some c => Some c
  | None => Storage.find name cs2
  end.
Proof.
  induction cs1 as [|[n c] cs1 IH]; simpl; [done|].
  destruct (decide (n = name)); [done|apply IH].
Qed.

Lemma find_open_eq name (cs : CacheStorage) :
  Storage.find name (Storage.open name cs) = Some (Storage.entries name cs).
Proof.
  unfold Storage.open, Storage.entries.
  destruct (Storage.find name cs) as [c|] eqn:E; simpl.
  - by rewrite E.
  - rewrite find_app, E. simpl. by rewrite decide_True.
Qed.

Lemma find_open_ne name n (cs : CacheStorage) :
  n ≠ name → Storage.find n (Storage.open name cs) = Storage.find n cs.
Proof.
  intros Hne. unfold Storage.open.
  destruct (Storage.find name cs); [done|].
  rewrite find_app. destruct (Storage.find n cs); [done|].
  simpl. by rewrite decide_False.
Qed.

Lemma entries_open name n (cs : CacheStorage) :
  Storage.entries n (Storage.open name cs) = Storage.entries n cs.
Proof.
  unfold Storage.entries at 1. destruct (decide (n = name)) as [->|Hne].
  - by rewrite find_open_eq.
  - by rewrite find_open_ne.
Qed.

Lemma find_delete_eq name (cs : CacheStorage) :
  Storage.find name (Storage.delete name cs) = None.
Proof.
  unfold Storage.delete. induction cs as [|[n c] cs IH]; [done|].
  rewrite filter_cons. simpl. destruct (decide (n ≠ name)) as [Hne|Heq]; simpl.
  - by rewrite decide_False.
  - done.
Qed.

Lemma find_delete_ne name n (cs : CacheStorage) :
  n ≠ name → Storage.find n (Storage.delete name cs) = Storage.find n cs.
Proof.
  intros Hne. unfold Storage.delete. induction cs as [|[m c] cs IH]; [done|].
  rewrite filter_cons. simpl. destruct (decide (m ≠ name)) as [Hm|Hm]; simpl.
  - by rewrite IH.
  - apply dec_stable in Hm. subst m. by rewrite decide_False.
Qed.

Lemma find_update_eq name f (cs : CacheStorage) :
  Storage.find name (Storage.update name f cs) = f <$> Storage.find name cs.
Proof.
  induction cs as [|[n c] cs IH]; [done|]. simpl.
  destruct (decide (n = name)) as [->|Hne]; simpl.
  - by rewrite decide_True.
  - by rewrite decide_False.
Qed.

Lemma find_update_ne name n f (cs : CacheStorage) :
  n ≠ name → Storage.find n (Storage.update name f cs) = Storage.find n cs.
Proof.
  intros Hne. induction cs as [|[m c] cs IH]; [done|]. simpl.
  destruct (decide (m = name)) as [->|Hm]; simpl.
  - by rewrite !decide_False by done.
  - by rewrite IH.
Qed.

Lemma keys_update name f (cs : CacheStorage) :
  Storage.keys (Storage.update name f cs) = Storage.keys cs.
Proof.
  unfold Storage.keys. induction cs as [|[m c] cs IH]; [done|]. simpl.
  destruct (decide (m = name)); simpl; [done|]. f_equal. exact IH.
Qed.

Lemma match_any_None key (cs : CacheStorage) :
  (∀ name c, (name, c) ∈ cs → c !! key = None) →
  Storage.match_any key cs = None.
Proof.
  induction cs as [|[n c] cs IH]; intros H; [done|]. simpl.
  rewrite (H n c) by apply list_elem_of_here.
  apply IH. intros n' c' Hin. apply (H n' c'). by apply list_elem_of_further.
Qed.

Lemma entries_update_eq name f (cs : CacheStorage) :
  is_Some (Storage.find name cs) →
  Storage.entries name (Storage.update name f cs) = f (Storage.entries name cs).
Proof.
  intros [c Hc]. unfold Storage.entries. by rewrite find_update_eq, Hc.
Qed.

Lemma entries_update_ne name n f (cs : CacheStorage) :
  n ≠ name →
  Storage.entries n (Storage.update name f cs) = Storage.entries n cs.
Proof. intros Hne. unfold Storage.entries. by rewrite find_update_ne. Qed.

Lemma entries_update_delete name key (cs : CacheStorage) :
  Storage.entries name (Storage.update name (delete key) cs) =
  delete key (Storage.entries name cs).
Proof.
  unfold Storage.entries. rewrite find_update_eq.
  destruct (Storage.find name cs); simpl; [done|]. by rewrite delete_empty.
Qed.

End Storage_facts.

Import Storage_facts.

(** ** Fallbacks of the strategy handlers *)

(** C1. For every API request, when the network fetch fails and no cache of
    the storage holds an entry for the request, [handleAPIRequest] answers
    with status 503 and a JSON body whose [offline] field is [true]. *)
Theorem api_offline_signal network (request : Request) (w : World) :
  isAPIRequest request = true →
  network request = None →
  (∀ name (c : Cache), (name, c) ∈ caches w → c !! href (url request) = None) →
  ∃ response fields,
    result (handleAPIRequest network request) w = Resolved response ∧
    status response = 503 ∧
    Headers_get (headers response) "Content-Type" = Some "application/json" ∧
    body response = Json.stringify (JObject fields) ∧
    Json.get "offline" fields = Some (JBool true).
Proof.
  intros _ Hnet Hmiss. exists offline_error, OFFLINE_ERROR.
  split; [|by repeat split].
  unfold handleAPIRequest. w_step. rewrite Hnet.
  destruct (is_GET request); w_step; [|done].
  by rewrite (match_any_None _ _ Hmiss).
Qed.

(** C2. For every document request, when the network fetch fails and no
    cache of the storage holds an entry for the request, [handlePageRequest]
    answers with a synthesised HTML page of status 200 whose body contains
    the text Offline. *)
Theorem page_offline_fallback network (request : Request) (w : World) :
  destination request = "document" →
  network request = None →
  (∀ name (c : Cache), (name, c) ∈ caches w → c !! href (url request) = None) →
  ∃ response,
    result (handlePageRequest network request) w = Resolved response ∧
    status response = 200 ∧
    Headers_get (headers response) "Content-Type" = Some "text/html" ∧
    Str.includes (body response) "Offline" = true.
Proof.
  intros _ Hnet Hmiss. exists offline_page.
  split; [|by vm_compute].
  unfold handlePageRequest. w_step. rewrite Hnet. w_step.
  rewrite (match_any_None _ _ Hmiss). by destruct (is_GET request).
Qed.

(** C3. For every image request, when the network fetch fails and the image
    partition holds no entry for the request, [handleOptimizedImageRequest]
    answers with the placeholder: content type [image/svg+xml], status 200
    and [Cache-Control: no-cache]. *)
Theorem image_placeholder_fallback network (request : Request) (w : World) :
  destination request = "image" ∨ isImageRequest (url request) = true →
  network (image_fetch_request request) = None →
  Storage.entries IMAGE_CACHE_NAME (caches w) !! href (url request) = None →
  ∃ response,
    result (handleOptimizedImageRequest network request) w = Resolved response ∧
    Headers_get (headers response) "Content-Type" = Some "image/svg+xml" ∧
    status response = 200 ∧
    Headers_get (headers response) "Cache-Control" = Some "no-cache" ∧
    Str.includes (body response) "Image unavailable" = true.
Proof.
  intros _ Hnet Hmiss. exists placeholder_image.
  split; [|by vm_compute].
  unfold handleOptimizedImageRequest. w_step.
  rewrite entries_open, Hmiss.
  replace (if is_GET request then None else None) with (@None Response)
    by by destruct (is_GET request).
  w_step. rewrite Hnet. unfold image_fallback. w_step.
  rewrite !entries_open, Hmiss. by destruct (is_GET request).
Qed.

(** ** Requests the fetch listener leaves alone *)

(** C4, as the code has it: every intercepted request whose URL protocol is
    [chrome-extension:] passes through; the listener returns without
    [respondWith], no strategy handler runs, and the world (the cache
    partitions and the trace of cache operations) is unchanged. *)
Theorem chrome_extension_bypass network (request : Request) (w : World) :
  protocol (url request) = "chrome-extension:" →
  fetch_dispatch request = None ∧
  result (on_fetch network request) w = None ∧
  run (on_fetch network request) w = w.
Proof.
  intros Hproto.
  assert (fetch_dispatch request = None) as Hd.
  { unfold fetch_dispatch. rewrite Hproto. simpl.
    by destruct (negb (String.eqb (method request) "GET")). }
  unfold on_fetch. by rewrite Hd.
Qed.

(** C5. For every request whose method is not GET the fetch listener
    returns without dispatching to a strategy: nothing is answered, and the
    world is left as it was, so no cache partition is read or written and
    every partition keeps its contents. *)
Theorem non_GET_bypass network (request : Request) (w : World) :
  method request ≠ "GET" →
  fetch_dispatch request = None ∧
  result (on_fetch network request) w = None ∧
  caches (run (on_fetch network request) w) = caches w ∧
  trace (run (on_fetch network request) w) = trace w.
Proof.
  intros Hm.
  assert (fetch_dispatch request = None) as Hd.
  { unfold fetch_dispatch. apply String.eqb_neq in Hm. by rewrite Hm. }
  unfold on_fetch. by rewrite Hd.
Qed.

(** ** Activation *)

Lemma run_bind {A B} (m : W A) (f : A → W B) (w : World) :
  run (m ≫= f) w = run (f (result m w)) (run m w).
Proof. unfold run, result, mbind, W_bind. by destruct (m w). Qed.

Lemma result_bind {A B} (m : W A) (f : A → W B) (w : World) :
  result (m ≫= f) w = result (f (result m w)) (run m w).
Proof. unfold run, result, mbind, W_bind. by destruct (m w). Qed.

Lemma world_eta (w : World) :
  {| caches := caches w; clients := clients w; ticks := ticks w; trace := trace w |} = w.
Proof. by destruct w. Qed.

Lemma filter_ext_elem {A} (P Q : A → Prop)
    `{!∀ x, Decision (P x), !∀ x, Decision (Q x)} (l : list A) :
  (∀ x, x ∈ l → P x ↔ Q x) → filter P l = filter Q l.
Proof.
  induction l as [|a l IH]; intros Hext; [done|].
  rewrite !filter_cons.
  rewrite IH by (intros x Hx; apply Hext; by apply list_elem_of_further).
  apply decide_ext, Hext, list_elem_of_here.
Qed.

Lemma is_stale_false (name : string) :
  is_stale name = false ↔ name ∈ [STATIC_CACHE; DYNAMIC_CACHE; IMAGE_CACHE_NAME].
Proof.
  unfold is_stale. rewrite !elem_of_cons, elem_of_nil.
  destruct (String.eqb_spec name STATIC_CACHE) as [->|H1]; [by intuition|].
  destruct (String.eqb_spec name DYNAMIC_CACHE) as [->|H2]; [by intuition|].
  destruct (String.eqb_spec name IMAGE_CACHE_NAME) as [->|H3]; [by intuition|].
  simpl. intuition discriminate.
Qed.

Lemma filter_all {A} (P : A → Prop) `{!∀ x, Decision (P x)} (l : list A) :
  (∀ x, x ∈ l → P x) → filter P l = l.
Proof.
  induction l as [|a l IH]; intros Hall; [done|].
  rewrite filter_cons_True by apply Hall, list_elem_of_here.
  f_equal. apply IH. intros x Hx. by apply Hall, list_elem_of_further.
Qed.

Lemma activate_loop (l : list string) (w : World) :
  run (forEach l delete_if_stale) w =
  {| caches := filter (fun p => is_stale p.1 = false ∨ p.1 ∉ l) (caches w);
     clients := clients w; ticks := ticks w;
     trace := trace w ++ (CachesDelete <$> filter (fun n => is_stale n = true) l) |}.
Proof.
  revert w. induction l as [|x l IH]; intros w.
  - simpl. rewrite app_nil_r, filter_all; [apply symmetry, world_eta|].
    intros p _. right. apply not_elem_of_nil.
  - cbn [forEach]. rewrite run_bind, IH. unfold delete_if_stale.
    destruct (is_stale x) eqn:Hx; w_step.
    + rewrite filter_cons_True by done. rewrite fmap_cons, <- app_assoc. simpl.
      f_equal. unfold Storage.delete. rewrite list_filter_filter.
      apply list_filter_iff. intros p. rewrite not_elem_of_cons. split.
      * intros [[Hp|Hp] Hne]; [by left|by right].
      * intros [Hp|[Hne Hp]]; [|by split; [right|]].
        split; [by left|]. intros Heq. rewrite Heq in Hp. congruence.
    + rewrite filter_cons_False by (by rewrite Hx).
      f_equal. apply list_filter_iff. intros p. rewrite not_elem_of_cons. split.
      * intros [Hp|Hp]; [by left|].
        destruct (decide (p.1 = x)) as [Heq|Hne]; [left; by rewrite Heq|by right].
      * intros [Hp|[_ Hp]]; [by left|by right].
Qed.

(** C6. After the activate listener, from any set of existing partitions:
    every partition that remains bears one of the three current names; the
    storage is the old one with exactly the other partitions deleted, each
    by a [caches.delete] that follows the enumeration; and the last effect
    is the claim of the open page contexts. *)
Theorem activate_purges_stale (w : World) :
  (∀ name, name ∈ Storage.keys (caches (run on_activate w)) →
           name = STATIC_CACHE ∨ name = DYNAMIC_CACHE ∨ name = IMAGE_CACHE_NAME) ∧
  caches (run on_activate w) =
    filter (fun p => p.1 ∈ [STATIC_CACHE; DYNAMIC_CACHE; IMAGE_CACHE_NAME]) (caches w) ∧
  trace (run on_activate w) =
    trace w ++ [CachesKeys] ++
    (CachesDelete <$> filter (fun n => is_stale n = true) (Storage.keys (caches w))) ++
    [ClientsClaim].
Proof.
  assert (run on_activate w =
    {| caches := filter (fun p => p.1 ∈ [STATIC_CACHE; DYNAMIC_CACHE; IMAGE_CACHE_NAME]) (caches w);
       clients := clients w; ticks := ticks w;
       trace := trace w ++ [CachesKeys] ++
         (CachesDelete <$> filter (fun n => is_stale n = true) (Storage.keys (caches w))) ++
         [ClientsClaim] |}) as ->.
  { unfold on_activate. rewrite !run_bind, activate_loop. w_step.
    f_equal.
    - apply filter_ext_elem. intros p Hp. rewrite <- is_stale_false.
      split; [|by left]. intros [?|Hn]; [done|]. destruct Hn.
      unfold Storage.keys. by apply list_elem_of_fmap_2.
    - by rewrite <- !app_assoc. }
  simpl. split; [|done].
  intros name [p [-> Hp]]%list_elem_of_fmap.
  apply list_elem_of_filter in Hp as [Hp _].
  rewrite !elem_of_cons, elem_of_nil in Hp. tauto.
Qed.

(** ** Background sync *)

Section Sweep.
Variable Date_getTime : string → option Z.
Variable oneWeekAgo : Z.

Lemma sweep_entry_spec (request : string) (w : World) :
  let w' := run (sweep_entry Date_getTime oneWeekAgo request) w in
  (∀ k, Storage.entries IMAGE_CACHE_NAME (caches w') !! k =
        r ← Storage.entries IMAGE_CACHE_NAME (caches w) !! k;
        if bool_decide (k = request) && expired Date_getTime oneWeekAgo r
        then None else Some r) ∧
  (∀ n, n ≠ IMAGE_CACHE_NAME → Storage.find n (caches w') = Storage.find n (caches w)) ∧
  Storage.keys (caches w') = Storage.keys (caches w) ∧
  clients w' = clients w ∧ ticks w' = ticks w ∧
  ∃ es, trace w' = trace w ++ es ∧ Forall (fun e => touches_cache e = true) es.
Proof.
  unfold sweep_entry. w_step.
  destruct (Storage.entries IMAGE_CACHE_NAME (caches w) !! request) as [r|] eqn:E.
  - destruct (expired Date_getTime oneWeekAgo r) eqn:Ex; w_step.
    + split_and!; try done.
      * intros k. rewrite entries_update_delete.
        destruct (decide (k = request)) as [->|Hne].
        -- rewrite lookup_delete_eq, E. simpl. by rewrite bool_decide_true, Ex.
        -- rewrite lookup_delete_ne by done.
           destruct (_ !! k); simpl; [|done]. by rewrite bool_decide_false.
      * intros n Hn. by rewrite find_update_ne.
      * apply keys_update.
      * eexists. rewrite <- app_assoc. split; [done|]. by repeat constructor.
    + split_and!; try done.
      * intros k. destruct (decide (k = request)) as [->|Hne].
        -- rewrite E. simpl. by rewrite Ex, andb_false_r.
        -- destruct (_ !! k); simpl; [|done]. by rewrite bool_decide_false.
      * eexists. split; [done|]. by repeat constructor.
  - split_and!; try done.
    + intros k. destruct (decide (k = request)) as [->|Hne].
      * by rewrite E.
      * destruct (_ !! k); simpl; [|done]. by rewrite bool_decide_false.
    + eexists. split; [done|]. by repeat constructor.
Qed.

Lemma sweep_loop (l : list string) (w : World) :
  let w' := run (forEach l (sweep_entry Date_getTime oneWeekAgo)) w in
  (∀ k, Storage.entries IMAGE_CACHE_NAME (caches w') !! k =
        r ← Storage.entries IMAGE_CACHE_NAME (caches w) !! k;
        if bool_decide (k ∈ l) && expired Date_getTime oneWeekAgo r
        then None else Some r) ∧
  (∀ n, n ≠ IMAGE_CACHE_NAME → Storage.find n (caches w') = Storage.find n (caches w)) ∧
  Storage.keys (caches w') = Storage.keys (caches w) ∧
  clients w' = clients w ∧ ticks w' = ticks w ∧
  ∃ es, trace w' = trace w ++ es ∧ Forall (fun e => touches_cache e = true) es.
Proof.
  revert w. induction l as [|x l IH]; intros w; cbn zeta.
  - simpl. split_and!; try done.
    + intros k. by destruct (_ !! k).
    + exists []. by rewrite app_nil_r.
  - cbn [forEach]. rewrite run_bind.
    destruct (sweep_entry_spec x w) as (Hx & Hfx & Hkx & Hcx & Htx & esx & Hex & Hax).
    destruct (IH (run (sweep_entry Date_getTime oneWeekAgo x) w))
      as (Hl & Hfl & Hkl & Hcl & Htl & esl & Hel & Hal).
    split_and!.
    + intros k. rewrite Hl, Hx.
      destruct (_ !! k) as [r|]; simpl; [|done].
      destruct (expired Date_getTime oneWeekAgo r) eqn:Ex;
        rewrite ?andb_true_r, ?andb_false_r; simpl;
        rewrite ?Ex, ?andb_true_r, ?andb_false_r; [|done].
      repeat case_bool_decide; simpl; rewrite ?Ex, ?andb_true_r; simpl;
        try done; rewrite elem_of_cons in *; tauto.
    + intros n Hn. by rewrite Hfl, Hfx.
    + by rewrite Hkl.
    + by rewrite Hcl.
    + by rewrite Htl.
    + exists (esx ++ esl). rewrite Hel, Hex, <- app_assoc. split; [done|].
      by apply Forall_app.
Qed.
End Sweep.

Section Broadcast.
Variable clock : nat → Z.

Lemma broadcast_loop (cl : list string) (w : World) :
  run (forEach cl (fun client =>
         timestamp ← Date_now clock;
         postMessage (ToClient client) (SYNC_COMPLETE timestamp))) w =
  {| caches := caches w; clients := clients w;
     ticks := (ticks w + length cl)%nat;
     trace := trace w ++
       imap (fun i client =>
               PostMessage (ToClient client) (SYNC_COMPLETE (clock (ticks w + i)%nat))) cl |}.
Proof.
  revert w. induction cl as [|c cl IH]; intros w.
  - simpl. rewrite app_nil_r, Nat.add_0_r. apply symmetry, world_eta.
  - cbn [forEach]. rewrite run_bind, IH. w_step. simpl.
    rewrite Nat.add_0_r, <- app_assoc. simpl. f_equal.
    + lia.
    + do 2 f_equal. apply imap_ext. intros i x _. simpl. do 3 f_equal. lia.
Qed.
End Broadcast.

(** C7. After the background-sync sweep no entry of the image partition has
    a [date] header that reads as a time more than seven days before the
    sweep's reading of the clock; and after the cache operations of the
    sweep every open page context is sent one [SYNC_COMPLETE] message that
    carries a later reading of the clock.  An empty string is not a date. *)
Theorem sweep_evicts_aged clock Date_getTime (w : World) :
  Date_getTime "" = None →
  let w' := run (doBackgroundSync clock Date_getTime) w in
  let sweep_time := clock (ticks w) in
  (∀ key response dateHeader t,
     Storage.entries IMAGE_CACHE_NAME (caches w') !! key = Some response →
     Headers_get (headers response) "date" = Some dateHeader →
     Date_getTime dateHeader = Some t →
     sweep_time - ONE_WEEK ≤ t) ∧
  (∃ sweep,
     Forall (fun e => touches_cache e = true) sweep ∧
     trace w' = trace w ++ sweep ++ ClientsMatchAll ::
       imap (fun i client =>
               PostMessage (ToClient client)
                 (SYNC_COMPLETE (clock (S (ticks w) + i)%nat))) (clients w)).
Proof.
  intros Hempty w' sweep_time. subst w' sweep_time.
  unfold doBackgroundSync. rewrite !run_bind.
  set (w0 := run (caches_open IMAGE_CACHE_NAME) w).
  set (w1 := run (Cache_keys IMAGE_CACHE_NAME) w0).
  set (l := result (Cache_keys IMAGE_CACHE_NAME) w0).
  set (w2 := run (Date_now clock) w1).
  set (now := result (Date_now clock) w1).
  assert (now = clock (ticks w)) as Hnow by done.
  destruct (sweep_loop Date_getTime (now - ONE_WEEK) l w2)
    as (Hl & _ & _ & Hcl & Htl & es & Hes & Hall).
  set (w3 := run (forEach l (sweep_entry Date_getTime (now - ONE_WEEK))) w2) in *.
  rewrite broadcast_loop. w_step. split.
  - intros key response dateHeader t Hkey Hdate Ht.
    rewrite Hl in Hkey.
    assert (Storage.entries IMAGE_CACHE_NAME (caches w2) =
            Storage.entries IMAGE_CACHE_NAME (caches w)) as Hent
      by (subst w2 w1 w0; w_step; apply entries_open).
    destruct (Storage.entries IMAGE_CACHE_NAME (caches w2) !! key) as [r|] eqn:E;
      simpl in Hkey; [|done].
    assert (key ∈ l) as Hin.
    { subst l w0. w_step. rewrite entries_open, <- Hent.
      apply list_elem_of_fmap. exists (key, r). split; [done|].
      by apply elem_of_map_to_list. }
    rewrite bool_decide_true in Hkey by done. simpl in Hkey.
    destruct (expired Date_getTime (now - ONE_WEEK) r) eqn:Ex; [done|].
    injection Hkey as ->. unfold expired in Ex. rewrite Hdate in Ex.
    destruct dateHeader as [|a s]; [congruence|]. simpl in Ex.
    rewrite Ht in Ex. rewrite <- Hnow. lia.
  - exists ([CachesOpen IMAGE_CACHE_NAME; CacheKeys IMAGE_CACHE_NAME] ++ es).
    split; [by repeat constructor|].
    rewrite Hcl, Htl, Hes. subst w2 w1 w0. w_step.
    rewrite <- !app_assoc. simpl. done.
Qed.

(** ** Installation *)

Lemma put_all_lookup (es : list (string * Response)) (c : Cache) (k : string) (r : Response) :
  put_all es c !! k = Some r →
  (k, r) ∈ es ∨ (k ∉ fst <$> es) ∧ c !! k = Some r.
Proof.
  unfold put_all. revert c. induction es as [|[k' r'] es IH]; intros c H; simpl in *.
  - right. split; [apply not_elem_of_nil|done].
  - apply IH in H as [H|[Hk H]].
    + left. by apply list_elem_of_further.
    + destruct (decide (k' = k)) as [->|Hne].
      * rewrite lookup_insert_eq in H. injection H as ->. left. apply list_elem_of_here.
      * rewrite lookup_insert_ne in H by done. right. split; [|done].
        rewrite not_elem_of_cons. split; [congruence|done].
Qed.

Lemma put_all_is_Some (es : list (string * Response)) (c : Cache) (k : string) :
  is_Some (put_all es c !! k) ↔ (k ∈ fst <$> es) ∨ is_Some (c !! k).
Proof.
  unfold put_all. revert c. induction es as [|[k' r'] es IH]; intros c; simpl.
  - rewrite elem_of_nil. tauto.
  - rewrite IH, elem_of_cons, lookup_insert_is_Some. simpl.
    destruct (decide (k' = k)); intuition congruence.
Qed.

Lemma forEach_emit {A} (f : A → Effect) (l : list A) (w : World) :
  run (forEach l (fun x => emit (f x))) w =
  {| caches := caches w; clients := clients w; ticks := ticks w;
     trace := trace w ++ (f <$> l) |}.
Proof.
  revert w. induction l as [|x l IH]; intros w.
  - simpl. rewrite app_nil_r. apply symmetry, world_eta.
  - cbn [forEach]. rewrite run_bind, IH. w_step. by rewrite <- app_assoc.
Qed.

Section Install.
Variable network : Request → option Response.
Variable mkRequest : string → Request.

Lemma addAll_entry_Some (u : string) (e : string * Response) :
  addAll_entry network mkRequest u = Some e →
  e.1 = href (url (mkRequest u)) ∧ network (mkRequest u) = Some e.2.
Proof.
  unfold addAll_entry. destruct (network (mkRequest u)) as [r|]; [|done].
  destruct (ok_status r && storable (mkRequest u) r); [|done].
  by intros [= <-].
Qed.

Lemma addAll_entries (urls : list string) (es : list (string * Response)) :
  mapM (addAll_entry network mkRequest) urls = Some es →
  es.*1 = (fun u => href (url (mkRequest u))) <$> urls ∧
  ∀ k r, (k, r) ∈ es →
         ∃ u, u ∈ urls ∧ k = href (url (mkRequest u)) ∧ network (mkRequest u) = Some r.
Proof.
  intros H%mapM_Some_1. induction H as [|u e urls es He _ [IH1 IH2]].
  - split; [done|]. by intros k r ?%elem_of_nil.
  - apply addAll_entry_Some in He as [He1 He2]. split.
    + rewrite !fmap_cons. by f_equal.
    + intros k r [<-|Hin]%elem_of_cons.
      * exists u. split; [apply list_elem_of_here|done].
      * destruct (IH2 k r Hin) as (u' & ? & ? & ?).
        exists u'. split; [by apply list_elem_of_further|done].
Qed.

(** What [cache.addAll] leaves in the cache it was called on. *)
Lemma Cache_addAll_spec (name : string) (urls : list string) (w : World) :
  is_Some (Storage.find name (caches w)) →
  match mapM (addAll_entry network mkRequest) urls with
  | Some es =>
      result (Cache_addAll network mkRequest name urls) w = true ∧
      Storage.entries name (caches (run (Cache_addAll network mkRequest name urls) w)) =
        put_all es (Storage.entries name (caches w))
  | None =>
      result (Cache_addAll network mkRequest name urls) w = false ∧
      caches (run (Cache_addAll network mkRequest name urls) w) = caches w
  end ∧
  (∀ n, n ≠ name →
        Storage.find n (caches (run (Cache_addAll network mkRequest name urls) w)) =
        Storage.find n (caches w)) ∧
  Storage.keys (caches (run (Cache_addAll network mkRequest name urls) w)) =
    Storage.keys (caches w) ∧
  trace (run (Cache_addAll network mkRequest name urls) w) =
    trace w ++ CacheAddAll name urls ::
      ((fun u => Fetch (href (url (mkRequest u)))) <$> urls).
Proof.
  intros Hex. unfold Cache_addAll.
  rewrite !run_bind, !result_bind, forEach_emit.
  destruct (mapM (addAll_entry network mkRequest) urls) as [es|]; w_step.
  - split_and!; try done.
    + by apply entries_update_eq.
    + intros n Hn. by apply find_update_ne.
    + apply keys_update.
    + by rewrite <- app_assoc.
  - split_and!; try done. by rewrite <- app_assoc.
Qed.

(** C8. When every asset of the manifest is fetched with an ok, storable
    response, and the static partition held nothing but manifest entries
    before (as on a first install, where it does not exist, and in every
    world the worker itself brings about from there), then after the
    install listener the keys of the static partition are exactly the URLs
    of the manifest, each entry is the response fetched for its asset, the
    image partition exists, and the last effect is [skipWaiting]. *)
Theorem install_populates_static (w : World) :
  (∀ u, u ∈ STATIC_ASSETS →
        ∃ r, network (mkRequest u) = Some r ∧ ok_status r = true ∧
             storable (mkRequest u) r = true) →
  static_within_manifest mkRequest w →
  let w' := run (on_install network mkRequest) w in
  (∀ key, is_Some (Storage.entries STATIC_CACHE (caches w') !! key) ↔
          ∃ u, u ∈ STATIC_ASSETS ∧ key = href (url (mkRequest u))) ∧
  (∀ key r, Storage.entries STATIC_CACHE (caches w') !! key = Some r →
            ∃ u, u ∈ STATIC_ASSETS ∧ key = href (url (mkRequest u)) ∧
                 network (mkRequest u) = Some r) ∧
  is_Some (Storage.find IMAGE_CACHE_NAME (caches w')) ∧
  last (trace w') = Some SkipWaiting.
Proof.
  intros Hnet Hold w'. subst w'. unfold static_within_manifest in Hold.
  unfold on_install. rewrite !run_bind.
  set (w1 := run (caches_open IMAGE_CACHE_NAME) (run (caches_open STATIC_CACHE) w)).
  assert (Storage.find STATIC_CACHE (caches w1) =
          Some (Storage.entries STATIC_CACHE (caches w))) as Hstatic.
  { subst w1. w_step. rewrite find_open_ne by done. apply find_open_eq. }
  assert (is_Some (Storage.find IMAGE_CACHE_NAME (caches w1))) as Himage.
  { subst w1. w_step. by rewrite find_open_eq. }
  destruct (Cache_addAll_spec STATIC_CACHE STATIC_ASSETS w1) as (Hres & Hframe & _ & Htr);
    [by rewrite Hstatic|].
  destruct (mapM (addAll_entry network mkRequest) STATIC_ASSETS) as [es|] eqn:Hes.
  2:{ apply mapM_None_1, Exists_exists in Hes as (u & Hu & Hnone).
      destruct (Hnet u Hu) as (r & Hr & Hok & Hst).
      unfold addAll_entry in Hnone. by rewrite Hr, Hok, Hst in Hnone. }
  destruct Hres as [-> Hent].
  destruct (addAll_entries _ _ Hes) as [Hkeys Hvals].
  assert (Storage.entries STATIC_CACHE (caches w1) =
          Storage.entries STATIC_CACHE (caches w)) as Hw1
    by (unfold Storage.entries at 1; by rewrite Hstatic).
  set (w2 := run (Cache_addAll network mkRequest STATIC_CACHE STATIC_ASSETS) w1) in *.
  w_step. rewrite Hent, Hw1. split_and!.
  - intros key. rewrite put_all_is_Some, Hkeys, list_elem_of_fmap. split.
    + intros [(u & -> & Hu)|Hin]; [by exists u|by apply Hold].
    + intros (u & Hu & ->). left. by exists u.
  - intros key r [Hin|[Hnot Hin]]%put_all_lookup; [by apply Hvals|].
    destruct (Hold key) as (u & Hu & ->); [by eexists|].
    destruct Hnot. rewrite Hkeys. apply list_elem_of_fmap. by exists u.
  - by rewrite Hframe.
  - apply last_snoc.
Qed.
End Install.

(** ** Messages *)

Lemma entries_absent name (cs : CacheStorage) :
  Storage.find name cs = None → Storage.entries name cs = ∅.
Proof. intros H. unfold Storage.entries. by rewrite H. Qed.

(** C9. A [CLEAR_CACHE] message deletes the dynamic and the image partition
    and nothing else (the static partition is as before), then posts
    [{ success: true }] once on the first port of the event; a
    [GET_CACHE_SIZE] message handled next reports 0, 0 and 0. *)
Theorem clear_cache_then_size network mkRequest
    (clear size : MessageEvent) (port1 port2 : string) (w : World) :
  data_type clear = "CLEAR_CACHE" →
  ports clear !! 0%nat = Some port1 →
  data_type size = "GET_CACHE_SIZE" →
  ports size !! 0%nat = Some port2 →
  let w1 := run (on_message network mkRequest clear) w in
  let w2 := run (on_message network mkRequest size) w1 in
  Storage.find DYNAMIC_CACHE (caches w1) = None ∧
  Storage.find IMAGE_CACHE_NAME (caches w1) = None ∧
  caches w1 =
    filter (fun p => p.1 ≠ IMAGE_CACHE_NAME ∧ p.1 ≠ DYNAMIC_CACHE) (caches w) ∧
  Storage.find STATIC_CACHE (caches w1) = Storage.find STATIC_CACHE (caches w) ∧
  trace w1 = trace w ++ [ CachesDelete DYNAMIC_CACHE; CachesDelete IMAGE_CACHE_NAME;
                          PostMessage (ToPort port1) (Success true) ] ∧
  trace w2 = trace w1 ++ [ CachesOpen DYNAMIC_CACHE; CachesOpen IMAGE_CACHE_NAME;
                           CacheKeys DYNAMIC_CACHE; CacheKeys IMAGE_CACHE_NAME;
                           PostMessage (ToPort port2) (CacheSize 0 0 0) ].
Proof.
  intros Hclear Hp1 Hsize Hp2 w1 w2.
  assert (w1 =
    {| caches := Storage.delete IMAGE_CACHE_NAME (Storage.delete DYNAMIC_CACHE (caches w));
       clients := clients w; ticks := ticks w;
       trace := trace w ++ [ CachesDelete DYNAMIC_CACHE; CachesDelete IMAGE_CACHE_NAME;
                             PostMessage (ToPort port1) (Success true) ] |}) as Hw1.
  { subst w1 w2. unfold on_message. rewrite Hclear. cbn [String.eqb Ascii.eqb Bool.eqb].
    destruct (ports clear) as [|p ps] eqn:Hports; [done|]. injection Hp1 as ->.
    w_step. rewrite Hports. w_step. by rewrite <- !app_assoc. }
  assert (Storage.find DYNAMIC_CACHE (caches w1) = None) as Hdyn.
  { rewrite Hw1. simpl. rewrite find_delete_ne by done. apply find_delete_eq. }
  assert (Storage.find IMAGE_CACHE_NAME (caches w1) = None) as Himg.
  { rewrite Hw1. simpl. apply find_delete_eq. }
  split_and!; try done.
  - rewrite Hw1. simpl. unfold Storage.delete. apply list_filter_filter.
  - rewrite Hw1. simpl. by rewrite !find_delete_ne by done.
  - by rewrite Hw1.
  - subst w2. unfold on_message. rewrite Hsize. cbn [String.eqb Ascii.eqb Bool.eqb].
    destruct (ports size) as [|p ps] eqn:Hports; [done|]. injection Hp2 as ->.
    w_step. rewrite Hports. w_step.
    rewrite !entries_open, !(entries_absent _ _ Hdyn), !(entries_absent _ _ Himg).
    rewrite map_to_list_empty. simpl. by rewrite <- !app_assoc.
Qed.

(** ** What the image handler stores *)

Lemma optimizedResponse_headers (response : Response) :
  headers (optimizedResponse response) =
  [ ("cache-control", "public, max-age=604800");
    ("service-worker-cached", "true");
    ("x-optimized", "true") ].
Proof. reflexivity. Qed.

Lemma optimizedResponse_storable (request : Request) (response : Response) :
  is_GET request = true → is_http (url request) = true → status response = 200 →
  storable request (optimizedResponse response) = true.
Proof.
  intros Hget Hhttp Hst. unfold storable. rewrite Hget, Hhttp.
  unfold vary_star. rewrite optimizedResponse_headers. simpl. by rewrite Hst.
Qed.

(** An entry that does not read as expired outlives the sweep. *)
Lemma sweep_keeps clock Date_getTime (key : string) (r : Response) (w : World) :
  (∀ t, expired Date_getTime t r = false) →
  Storage.entries IMAGE_CACHE_NAME (caches w) !! key = Some r →
  Storage.entries IMAGE_CACHE_NAME
    (caches (run (doBackgroundSync clock Date_getTime) w)) !! key = Some r.
Proof.
  intros Hfresh Hkey. unfold doBackgroundSync. rewrite !run_bind.
  match goal with
  | |- context [run (forEach ?l (sweep_entry _ ?t)) ?w0] =>
      destruct (sweep_loop Date_getTime t l w0) as (Hl & _);
      set (w3 := run (forEach l (sweep_entry Date_getTime t)) w0) in *
  end.
  rewrite broadcast_loop. w_step. rewrite Hl. w_step.
  rewrite entries_open, Hkey. simpl. by rewrite Hfresh, andb_false_r.
Qed.

(** C10. On a cache miss answered by the network with status 200, for an
    http(s) GET request (so that the store is accepted), the image handler
    returns and stores the re-wrapped response.  Spreading the [Headers]
    instance of the network response contributes no property, so the
    re-wrapped response carries exactly the three headers [Cache-Control],
    [Service-Worker-Cached] and [X-Optimized]: it has no content type and no
    [date], and an entry holding it outlives every maintenance sweep. *)
Theorem image_store_drops_headers network (request : Request) (response : Response)
    (w : World) :
  is_GET request = true →
  is_http (url request) = true →
  Storage.entries IMAGE_CACHE_NAME (caches w) !! href (url request) = None →
  network (image_fetch_request request) = Some response →
  status response = 200 →
  let stored := optimizedResponse response in
  let w1 := run (handleOptimizedImageRequest network request) w in
  result (handleOptimizedImageRequest network request) w = Resolved stored ∧
  Storage.entries IMAGE_CACHE_NAME (caches w1) !! href (url request) = Some stored ∧
  own_enumerable (HeadersInstance (headers response)) = [] ∧
  headers stored = [ ("cache-control", "public, max-age=604800");
                     ("service-worker-cached", "true");
                     ("x-optimized", "true") ] ∧
  Headers_get (headers stored) "Content-Type" = None ∧
  Headers_get (headers stored) "date" = None ∧
  ∀ clock Date_getTime (w2 : World),
    Storage.entries IMAGE_CACHE_NAME (caches w2) !! href (url request) = Some stored →
    Storage.entries IMAGE_CACHE_NAME
      (caches (run (doBackgroundSync clock Date_getTime) w2)) !! href (url request)
    = Some stored.
Proof.
  intros Hget Hhttp Hmiss Hnet Hst stored w1.
  assert (handleOptimizedImageRequest network request w =
    (Resolved stored,
     {| caches := Storage.update IMAGE_CACHE_NAME (insert (href (url request)) stored)
                    (Storage.open IMAGE_CACHE_NAME (caches w));
        clients := clients w; ticks := ticks w;
        trace := trace w ++
          [ CachesOpen IMAGE_CACHE_NAME;
            CacheMatch IMAGE_CACHE_NAME (href (url request));
            Fetch (href (url request));
            CachePut IMAGE_CACHE_NAME (href (url request)) ] |})) as Hrun.
  { unfold handleOptimizedImageRequest. w_step.
    rewrite entries_open, Hmiss, Hget. w_step. rewrite Hnet, Hst. w_step.
    rewrite (optimizedResponse_storable request response Hget Hhttp Hst). w_step.
    change (200 =? 200) with true. cbv beta iota. cbn [caches clients ticks trace].
    subst stored. by rewrite <- !app_assoc. }
  subst w1. unfold result, run. rewrite Hrun. cbn [fst snd caches].
  split_and!; try done.
  - rewrite entries_update_eq by (rewrite find_open_eq; by eexists).
    apply lookup_insert_eq.
  - intros clock Date_getTime w2 Hkey. by apply sweep_keeps.
Qed.

(** ** The static partition is written by the install listener only *)

Lemma find_filter_name (P : string → Prop) `{!∀ n, Decision (P n)}
    (name : string) (cs : CacheStorage) :
  P name →
  Storage.find name (filter (fun p => P p.1) cs) = Storage.find name cs.
Proof.
  intros HP. induction cs as [|[n c] cs IH]; [done|].
  rewrite filter_cons. simpl. destruct (decide (P n)) as [Hn|Hn]; simpl.
  - by rewrite IH.
  - rewrite IH. destruct (decide (n = name)) as [->|]; [done|done].
Qed.

Lemma entries_delete_ne name n (cs : CacheStorage) :
  n ≠ name → Storage.entries n (Storage.delete name cs) = Storage.entries n cs.
Proof. intros Hne. unfold Storage.entries. by rewrite find_delete_ne. Qed.

Section Frame.
Variable name : string.

Lemma preserves_ret {A} (a : A) : preserves_partition name (mret a).
Proof. by intros w. Qed.

Lemma preserves_bind {A B} (m : W A) (f : A → W B) :
  preserves_partition name m → (∀ a, preserves_partition name (f a)) →
  preserves_partition name (m ≫= f).
Proof. intros Hm Hf w. by rewrite run_bind, Hf, Hm. Qed.

Lemma preserves_skip : preserves_partition name skip.
Proof. by intros w. Qed.

Lemma preserves_emit e : preserves_partition name (emit e).
Proof. by intros w. Qed.

Lemma preserves_fetch network request : preserves_partition name (fetch network request).
Proof. by intros w. Qed.

Lemma preserves_Date_now clock : preserves_partition name (Date_now clock).
Proof. by intros w. Qed.

Lemma preserves_caches_open n : preserves_partition name (caches_open n).
Proof. intros w. w_step. apply entries_open. Qed.

Lemma preserves_caches_keys : preserves_partition name caches_keys.
Proof. by intros w. Qed.

Lemma preserves_caches_match request : preserves_partition name (caches_match request).
Proof. by intros w. Qed.

Lemma preserves_caches_delete n : name ≠ n → preserves_partition name (caches_delete n).
Proof. intros Hne w. w_step. by apply entries_delete_ne. Qed.

Lemma preserves_Cache_lookup n key : preserves_partition name (Cache_lookup n key).
Proof. by intros w. Qed.

Lemma preserves_Cache_match n request : preserves_partition name (Cache_match n request).
Proof. by intros w. Qed.

Lemma preserves_Cache_keys n : preserves_partition name (Cache_keys n).
Proof. by intros w. Qed.

Lemma preserves_Cache_put n request response :
  name ≠ n → preserves_partition name (Cache_put n request response).
Proof.
  intros Hne w. w_step. destruct (storable request response); w_step; [|done].
  by apply entries_update_ne.
Qed.

Lemma preserves_Cache_delete n key :
  name ≠ n → preserves_partition name (Cache_delete n key).
Proof. intros Hne w. w_step. by apply entries_update_ne. Qed.

Lemma preserves_Cache_addAll network mkRequest n urls :
  name ≠ n → preserves_partition name (Cache_addAll network mkRequest n urls).
Proof.
  intros Hne w. unfold Cache_addAll. rewrite !run_bind, forEach_emit.
  destruct (mapM _ urls); w_step; [|done]. by apply entries_update_ne.
Qed.

Lemma preserves_postMessage to m : preserves_partition name (postMessage to m).
Proof. by intros w. Qed.

Lemma preserves_reply event m : preserves_partition name (reply event m).
Proof. intros w. unfold reply. by destruct (ports event). Qed.

Lemma preserves_skipWaiting : preserves_partition name skipWaiting.
Proof. by intros w. Qed.

Lemma preserves_clients_claim : preserves_partition name clients_claim.
Proof. by intros w. Qed.

Lemma preserves_clients_matchAll : preserves_partition name clients_matchAll.
Proof. by intros w. Qed.

Lemma preserves_forEach {A} (l : list A) (f : A → W ()) :
  (∀ x, preserves_partition name (f x)) → preserves_partition name (forEach l f).
Proof.
  intros Hf. induction l as [|x l IH]; [by intros w|].
  cbn [forEach]. apply preserves_bind; [apply Hf|by intros _].
Qed.

End Frame.

Create HintDb frame.
#[local] Hint Resolve preserves_ret preserves_skip preserves_emit preserves_fetch
  preserves_Date_now preserves_caches_open preserves_caches_keys preserves_caches_match
  preserves_caches_delete preserves_Cache_lookup preserves_Cache_match
  preserves_Cache_keys preserves_Cache_put preserves_Cache_delete
  preserves_Cache_addAll preserves_postMessage preserves_reply
  preserves_skipWaiting preserves_clients_claim preserves_clients_matchAll : frame.
#[local] Hint Extern 1 (_ ≠ _) => discriminate : frame.

(** Walks through a handler: binds, loops and branches, closing the leaves
    with the lemmas of the platform operations. *)
Ltac frame :=
  repeat first
    [ solve [auto with frame]
    | match goal with
      | |- preserves_partition _ (match ?x with _ => _ end) => destruct x
      | |- preserves_partition _ (_ ≫= _) => apply preserves_bind; [|intros ?]
      | |- preserves_partition _ (forEach _ _) => apply preserves_forEach; intros ?
      end
    | progress cbv zeta ].

Lemma on_fetch_static network request :
  preserves_partition STATIC_CACHE (on_fetch network request).
Proof.
  unfold on_fetch, run_strategy, handlePageRequest, handleOptimizedImageRequest,
    image_fallback, handleAPIRequest, handleAssetRequest. frame.
Qed.

Lemma on_message_static network mkRequest event :
  preserves_partition STATIC_CACHE (on_message network mkRequest event).
Proof. unfold on_message, preload_image. frame. Qed.

Lemma on_sync_static clock Date_getTime tag :
  preserves_partition STATIC_CACHE (on_sync clock Date_getTime tag).
Proof. unfold on_sync, doBackgroundSync, sweep_entry. frame. Qed.

Lemma on_activate_static : preserves_partition STATIC_CACHE on_activate.
Proof.
  unfold on_activate. apply preserves_bind; [frame|]. intros cacheNames.
  apply preserves_bind; [|frame]. apply preserves_forEach. intros cacheName.
  unfold delete_if_stale. destruct (is_stale cacheName) eqn:Hstale; [|frame].
  apply preserves_caches_delete. intros <-. by vm_compute in Hstale.
Qed.

Section Install_frame.
Variable network : Request → option Response.
Variable mkRequest : string → Request.

Lemma on_install_static_within_manifest (w : World) :
  static_within_manifest mkRequest w →
  static_within_manifest mkRequest (run (on_install network mkRequest) w).
Proof.
  intros Hw key. unfold on_install. rewrite !run_bind.
  set (w1 := run (caches_open IMAGE_CACHE_NAME) (run (caches_open STATIC_CACHE) w)).
  assert (Storage.find STATIC_CACHE (caches w1) =
          Some (Storage.entries STATIC_CACHE (caches w))) as Hstatic.
  { subst w1. w_step. rewrite find_open_ne by done. apply find_open_eq. }
  assert (Storage.entries STATIC_CACHE (caches w1) =
          Storage.entries STATIC_CACHE (caches w)) as Hw1
    by (unfold Storage.entries at 1; by rewrite Hstatic).
  destruct (Cache_addAll_spec network mkRequest STATIC_CACHE STATIC_ASSETS w1)
    as (Hres & _); [by rewrite Hstatic|].
  set (w2 := run (Cache_addAll network mkRequest STATIC_CACHE STATIC_ASSETS) w1) in *.
  destruct (mapM (addAll_entry network mkRequest) STATIC_ASSETS) as [es|] eqn:Hes.
  - destruct Hres as [-> Hent]. w_step. rewrite Hent, Hw1, put_all_is_Some.
    destruct (addAll_entries _ _ _ _ Hes) as [Hkeys _].
    rewrite Hkeys, list_elem_of_fmap.
    intros [(u & -> & Hu)|Hin]; [by exists u|by apply Hw].
  - destruct Hres as [-> Hcs]. w_step. rewrite Hcs.
    fold (Storage.entries STATIC_CACHE (caches w1)). rewrite Hw1. apply Hw.
Qed.

End Install_frame.

Lemma preserves_static_within_manifest mkRequest {A} (m : W A) (w : World) :
  preserves_partition STATIC_CACHE m →
  static_within_manifest mkRequest w →
  static_within_manifest mkRequest (run m w).
Proof. intros Hm Hw key. rewrite (Hm w). apply Hw. Qed.

(** X23. No handler but the install listener writes to the static partition,
    so its keys stay within the manifest in every world the worker reaches. *)
Lemma reachable_static_within_manifest clock Date_getTime mkRequest (w0 w : World) :
  static_within_manifest mkRequest w0 →
  reachable clock Date_getTime mkRequest w0 w →
  static_within_manifest mkRequest w.
Proof.
  intros H0 Hreach. induction Hreach as [|network e w _ IH]; [done|].
  destruct e as [| |request|tag|event]; cbn [handle_event].
  - by apply on_install_static_within_manifest.
  - apply preserves_static_within_manifest; [apply on_activate_static|done].
  - apply preserves_static_within_manifest; [|done].
    apply preserves_bind; [apply on_fetch_static|intros _; apply preserves_skip].
  - apply preserves_static_within_manifest; [apply on_sync_static|done].
  - apply preserves_static_within_manifest; [apply on_message_static|done].
Qed.

(** ** Concrete runs *)

(** The classifier on one request of each kind.  Requests to the backend
    host count as images unless they are authentication routes, and so does
    an API route that ends in an image extension. *)
Example classification :
  fetch_dispatch Sample.page_request = Some PageStrategy ∧
  fetch_dispatch Sample.image_request = Some ImageStrategy ∧
  fetch_dispatch Sample.api_request = Some APIStrategy ∧
  fetch_dispatch Sample.stylesheet_request = Some AssetStrategy ∧
  fetch_dispatch Sample.backend_auth_request = None ∧
  fetch_dispatch Sample.backend_rest_request = Some ImageStrategy ∧
  fetch_dispatch Sample.api_cover_request = Some ImageStrategy.
Proof. by vm_compute. Qed.

Example extension_pattern :
  image_extension_test "/a.JPG" = true ∧
  image_extension_test "/a.jpeg" = true ∧
  image_extension_test "/a.png?w=3" = true ∧
  image_extension_test "/a.jpg.txt" = false ∧
  image_extension_test "/a.svgz" = false.
Proof. by vm_compute. Qed.

Example offline_error_text :
  Str.includes (body offline_error) (Json.quote "offline" +:+ ":true") = true ∧
  Str.startsWith (body offline_error) ("{" +:+ Json.quote "error" +:+ ":") = true.
Proof. by vm_compute. Qed.

(** An image served from the network is in the image partition afterwards,
    and the second identical request makes no network call. *)
Example image_second_request_from_cache :
  let first := handleOptimizedImageRequest Sample.online Sample.image_request in
  network_calls (trace (run first (run first Sample.fresh))) = 1%nat ∧
  result first (run first Sample.fresh) = result first Sample.fresh.
Proof. by vm_compute. Qed.

Example install_stores_seven_assets :
  size (Storage.entries STATIC_CACHE
          (caches (run (on_install Sample.online Sample.mkRequest) Sample.fresh)))
  = 7%nat.
Proof. by vm_compute. Qed.

(** The sweep of June 2024 deletes the image dated January 2024. *)
Example sweep_deletes_january_image :
  trace (run (doBackgroundSync Sample.clock Sample.Date_getTime) Sample.used) =
    [ CachesOpen IMAGE_CACHE_NAME;
      CacheKeys IMAGE_CACHE_NAME;
      CacheMatch IMAGE_CACHE_NAME "https://acwhisk.app/upload/a.png";
      CacheDelete IMAGE_CACHE_NAME "https://acwhisk.app/upload/a.png";
      ClientsMatchAll;
      PostMessage (ToClient "tab-1") (SYNC_COMPLETE 1717200000001);
      PostMessage (ToClient "tab-2") (SYNC_COMPLETE 1717200000002) ] ∧
  Storage.entries IMAGE_CACHE_NAME
    (caches (run (doBackgroundSync Sample.clock Sample.Date_getTime) Sample.used)) = ∅.
Proof. by vm_compute. Qed.

Example activate_drops_old_version :
  Storage.keys (caches (run on_activate Sample.used)) =
  [DYNAMIC_CACHE; IMAGE_CACHE_NAME].
Proof. by vm_compute. Qed.

Lemma used_has_no_recipes (name : string) (c : Cache) :
  (name, c) ∈ caches Sample.used → c !! href (url Sample.api_request) = None.
Proof.
  intros Hin. unfold Sample.used in Hin. cbn [caches] in Hin.
  repeat (apply elem_of_cons in Hin as [[= -> ->]|Hin]); [by vm_compute..|].
  by apply elem_of_nil in Hin.
Qed.

(** An API request, offline, with nothing cached for it. *)
Lemma api_offline_signal_witness :
  ∃ response fields,
    result (handleAPIRequest Sample.offline Sample.api_request) Sample.used
      = Resolved response ∧
    status response = 503 ∧
    Headers_get (headers response) "Content-Type" = Some "application/json" ∧
    body response = Json.stringify (JObject fields) ∧
    Json.get "offline" fields = Some (JBool true).
Proof.
  apply (api_offline_signal Sample.offline Sample.api_request Sample.used).
  - reflexivity.
  - reflexivity.
  - apply used_has_no_recipes.
Defined.

(** A navigation, offline, on a fresh storage. *)
Lemma page_offline_fallback_witness :
  ∃ response,
    result (handlePageRequest Sample.offline Sample.page_request) Sample.fresh
      = Resolved response ∧
    status response = 200 ∧
    Headers_get (headers response) "Content-Type" = Some "text/html" ∧
    Str.includes (body response) "Offline" = true.
Proof.
  apply (page_offline_fallback Sample.offline Sample.page_request Sample.fresh).
  - reflexivity.
  - reflexivity.
  - intros name c Hin. by apply elem_of_nil in Hin.
Defined.

(** An image request, offline, whose URL is not in the image partition. *)
Lemma image_placeholder_fallback_witness :
  ∃ response,
    result (handleOptimizedImageRequest Sample.offline Sample.image_request) Sample.used
      = Resolved response ∧
    Headers_get (headers response) "Content-Type" = Some "image/svg+xml" ∧
    status response = 200 ∧
    Headers_get (headers response) "Cache-Control" = Some "no-cache" ∧
    Str.includes (body response) "Image unavailable" = true.
Proof.
  apply (image_placeholder_fallback Sample.offline Sample.image_request Sample.used).
  - left. reflexivity.
  - reflexivity.
  - vm_compute. reflexivity.
Defined.

(** C4, as the claim states it, fails: a GET for an extension-internal URL
    of another browser is neither http nor https, yet the listener hands it
    to the image handler, which creates and reads the image partition,
    fetches, has its [cache.put] refused and answers with the placeholder. *)
Lemma non_http_scheme_is_intercepted :
  is_http (url Sample.moz_extension_request) = false ∧
  fetch_dispatch Sample.moz_extension_request = Some ImageStrategy ∧
  result (on_fetch Sample.online Sample.moz_extension_request) Sample.fresh
    = Some (Resolved placeholder_image) ∧
  caches (run (on_fetch Sample.online Sample.moz_extension_request) Sample.fresh)
    = [(IMAGE_CACHE_NAME, ∅)] ∧
  trace (run (on_fetch Sample.online Sample.moz_extension_request) Sample.fresh)
    = [ CachesOpen IMAGE_CACHE_NAME;
        CacheMatch IMAGE_CACHE_NAME (href (url Sample.moz_extension_request));
        Fetch (href (url Sample.moz_extension_request));
        CachePut IMAGE_CACHE_NAME (href (url Sample.moz_extension_request));
        CachesOpen IMAGE_CACHE_NAME;
        CacheMatch IMAGE_CACHE_NAME (href (url Sample.moz_extension_request)) ].
Proof. by vm_compute. Qed.

Lemma chrome_extension_bypass_witness :
  fetch_dispatch Sample.chrome_extension_request = None ∧
  result (on_fetch Sample.online Sample.chrome_extension_request) Sample.used = None ∧
  run (on_fetch Sample.online Sample.chrome_extension_request) Sample.used = Sample.used.
Proof.
  apply (chrome_extension_bypass Sample.online Sample.chrome_extension_request Sample.used).
  reflexivity.
Defined.

Lemma non_GET_bypass_witness :
  fetch_dispatch Sample.post_request = None ∧
  result (on_fetch Sample.online Sample.post_request) Sample.used = None ∧
  caches (run (on_fetch Sample.online Sample.post_request) Sample.used)
    = caches Sample.used ∧
  trace (run (on_fetch Sample.online Sample.post_request) Sample.used)
    = trace Sample.used.
Proof.
  apply (non_GET_bypass Sample.online Sample.post_request Sample.used).
  simpl. discriminate.
Defined.

(** A sweep in June 2024 over a storage whose one image dates from January. *)
Lemma sweep_evicts_aged_witness :
  (∀ key response dateHeader t,
     Storage.entries IMAGE_CACHE_NAME
       (caches (run (doBackgroundSync Sample.clock Sample.Date_getTime) Sample.used))
       !! key = Some response →
     Headers_get (headers response) "date" = Some dateHeader →
     Sample.Date_getTime dateHeader = Some t →
     Sample.clock (ticks Sample.used) - ONE_WEEK ≤ t) ∧
  (∃ sweep,
     Forall (fun e => touches_cache e = true) sweep ∧
     trace (run (doBackgroundSync Sample.clock Sample.Date_getTime) Sample.used) =
       trace Sample.used ++ sweep ++ ClientsMatchAll ::
       imap (fun i client =>
               PostMessage (ToClient client)
                 (SYNC_COMPLETE (Sample.clock (S (ticks Sample.used) + i)%nat)))
            (clients Sample.used)).
Proof.
  apply (sweep_evicts_aged Sample.clock Sample.Date_getTime Sample.used).
  reflexivity.
Defined.

(** A first install with every asset of the manifest served. *)
Lemma install_populates_static_witness :
  (∀ key,
     is_Some (Storage.entries STATIC_CACHE
                (caches (run (on_install Sample.online Sample.mkRequest) Sample.fresh))
              !! key) ↔
     ∃ u, u ∈ STATIC_ASSETS ∧ key = href (url (Sample.mkRequest u))) ∧
  (∀ key r,
     Storage.entries STATIC_CACHE
       (caches (run (on_install Sample.online Sample.mkRequest) Sample.fresh))
     !! key = Some r →
     ∃ u, u ∈ STATIC_ASSETS ∧ key = href (url (Sample.mkRequest u)) ∧
          Sample.online (Sample.mkRequest u) = Some r) ∧
  is_Some (Storage.find IMAGE_CACHE_NAME
             (caches (run (on_install Sample.online Sample.mkRequest) Sample.fresh))) ∧
  last (trace (run (on_install Sample.online Sample.mkRequest) Sample.fresh))
    = Some SkipWaiting.
Proof.
  apply (install_populates_static Sample.online Sample.mkRequest Sample.fresh).
  - intros u _. eexists. split; [reflexivity|]. split; reflexivity.
  - intros key Hkey. change (is_Some ((∅ : Cache) !! key)) in Hkey.
    rewrite lookup_empty in Hkey. by apply is_Some_None in Hkey.
Defined.

(** The two messages of the page, each with its own reply port. *)
Lemma clear_cache_then_size_witness :
  Storage.find DYNAMIC_CACHE
    (caches (run (on_message Sample.offline Sample.mkRequest Sample.clear_cache)
                 Sample.used)) = None ∧
  Storage.find IMAGE_CACHE_NAME
    (caches (run (on_message Sample.offline Sample.mkRequest Sample.clear_cache)
                 Sample.used)) = None ∧
  caches (run (on_message Sample.offline Sample.mkRequest Sample.clear_cache) Sample.used) =
    filter (fun p => p.1 ≠ IMAGE_CACHE_NAME ∧ p.1 ≠ DYNAMIC_CACHE) (caches Sample.used) ∧
  Storage.find STATIC_CACHE
    (caches (run (on_message Sample.offline Sample.mkRequest Sample.clear_cache)
                 Sample.used)) = Storage.find STATIC_CACHE (caches Sample.used) ∧
  trace (run (on_message Sample.offline Sample.mkRequest Sample.clear_cache) Sample.used) =
    trace Sample.used ++
    [ CachesDelete DYNAMIC_CACHE; CachesDelete IMAGE_CACHE_NAME;
      PostMessage (ToPort "port-1") (Success true) ] ∧
  trace (run (on_message Sample.offline Sample.mkRequest Sample.get_cache_size)
           (run (on_message Sample.offline Sample.mkRequest Sample.clear_cache)
                Sample.used)) =
    trace (run (on_message Sample.offline Sample.mkRequest Sample.clear_cache)
               Sample.used) ++
    [ CachesOpen DYNAMIC_CACHE; CachesOpen IMAGE_CACHE_NAME;
      CacheKeys DYNAMIC_CACHE; CacheKeys IMAGE_CACHE_NAME;
      PostMessage (ToPort "port-2") (CacheSize 0 0 0) ].
Proof.
  apply (clear_cache_then_size Sample.offline Sample.mkRequest
           Sample.clear_cache Sample.get_cache_size "port-1" "port-2" Sample.used);
    reflexivity.
Defined.

(** A first request for an image that the server answers with a dated 200. *)
Lemma image_store_drops_headers_witness :
  result (handleOptimizedImageRequest Sample.online Sample.image_request) Sample.fresh
    = Resolved (optimizedResponse (Sample.response_to Sample.image_request)) ∧
  Storage.entries IMAGE_CACHE_NAME
    (caches (run (handleOptimizedImageRequest Sample.online Sample.image_request)
                 Sample.fresh))
    !! href (url Sample.image_request)
    = Some (optimizedResponse (Sample.response_to Sample.image_request)) ∧
  own_enumerable (HeadersInstance (headers (Sample.response_to Sample.image_request)))
    = [] ∧
  headers (optimizedResponse (Sample.response_to Sample.image_request)) =
    [ ("cache-control", "public, max-age=604800");
      ("service-worker-cached", "true");
      ("x-optimized", "true") ] ∧
  Headers_get (headers (optimizedResponse (Sample.response_to Sample.image_request)))
    "Content-Type" = None ∧
  Headers_get (headers (optimizedResponse (Sample.response_to Sample.image_request)))
    "date" = None ∧
  ∀ clock Date_getTime (w2 : World),
    Storage.entries IMAGE_CACHE_NAME (caches w2) !! href (url Sample.image_request)
      = Some (optimizedResponse (Sample.response_to Sample.image_request)) →
    Storage.entries IMAGE_CACHE_NAME
      (caches (run (doBackgroundSync clock Date_getTime) w2))
      !! href (url Sample.image_request)
    = Some (optimizedResponse (Sample.response_to Sample.image_request)).
Proof.
  apply (image_store_drops_headers Sample.online Sample.image_request
           (Sample.response_to Sample.image_request) Sample.fresh);
    reflexivity.
Defined.

(** * Further properties of the worker *)

(** ** More about the fetch listener *)

(** X1. A request to a host whose name includes supabase.co and whose path
    includes /auth/ is left alone whatever its method and destination: the
    listener answers nothing and the world is unchanged. *)
Theorem auth_routes_bypass network (request : Request) (w : World) :
  Str.includes (hostname (url request)) "supabase.co" = true →
  Str.includes (pathname (url request)) "/auth/" = true →
  fetch_dispatch request = None ∧
  result (on_fetch network request) w = None ∧
  run (on_fetch network request) w = w.
Proof.
  intros Hhost Hpath.
  assert (fetch_dispatch request = None) as Hd.
  { unfold fetch_dispatch. rewrite Hhost, Hpath. simpl.
    destruct (negb _); [done|]. by destruct (String.eqb _ _). }
  unfold on_fetch. by rewrite Hd.
Qed.

(** X2. The listener declines a request exactly when it is not a GET, or its
    protocol is chrome-extension:, or it is an authentication route of the
    backend host; every other request is answered by one of the four
    strategy handlers. *)
Theorem dispatch_skips_exactly (request : Request) :
  fetch_dispatch request = None ↔
  method request ≠ "GET" ∨
  protocol (url request) = "chrome-extension:" ∨
  (Str.includes (hostname (url request)) "supabase.co" = true ∧
   Str.includes (pathname (url request)) "/auth/" = true).
Proof.
  unfold fetch_dispatch.
  destruct (String.eqb_spec (method request) "GET") as [Hm|Hm]; simpl; [|tauto].
  destruct (String.eqb_spec (protocol (url request)) "chrome-extension:") as [Hp|Hp];
    [tauto|].
  destruct (Str.includes (hostname (url request)) "supabase.co");
    destruct (Str.includes (pathname (url request)) "/auth/"); simpl; [tauto|..].
  all: split; [|intros [?|[?|[? ?]]]; done].
  all: repeat match goal with |- context [if ?b then _ else _] => destruct b end; done.
Qed.

(** X3. A GET to a host whose name includes supabase.co, outside its
    authentication routes and not a navigation, goes to the image strategy
    whatever its path, so such a request never reaches the API strategy. *)
Theorem backend_requests_are_images (request : Request) :
  method request = "GET" →
  protocol (url request) ≠ "chrome-extension:" →
  Str.includes (hostname (url request)) "supabase.co" = true →
  Str.includes (pathname (url request)) "/auth/" = false →
  destination request ≠ "document" →
  fetch_dispatch request = Some ImageStrategy.
Proof.
  intros Hm Hp Hhost Hpath Hdest. unfold fetch_dispatch, isImageRequest.
  rewrite Hm, Hhost, Hpath. simpl.
  apply String.eqb_neq in Hp, Hdest. rewrite Hp, Hdest.
  by rewrite !orb_true_r.
Qed.

(** ** The strategy handlers on every path *)

(** One case distinction on a test a handler is waiting for. *)
Ltac case_step :=
  match goal with
  | |- context [if is_GET ?r then _ else _] => destruct (is_GET r) eqn:?
  | |- context [if storable ?a ?b then _ else _] => destruct (storable a b) eqn:?
  | |- context [if (?a =? ?b)%Z then _ else _] => destruct (a =? b)%Z eqn:?
  | |- context [match ?m !! ?k with _ => _ end] => destruct (m !! k) eqn:?
  | |- context [match Storage.match_any ?k ?c with _ => _ end] =>
      destruct (Storage.match_any k c) eqn:?
  | |- context [if ?b then _ else _] => destruct b eqn:?
  end.

Ltac handler_cases := repeat (w_step; case_step); w_step.

(** The dynamic partition after the store that follows a network answer. *)
Lemma entries_after_put name key (r : Response) (cs : CacheStorage) :
  Storage.entries name
    (Storage.update name (insert key r) (Storage.open name cs)) !! key = Some r.
Proof.
  rewrite entries_update_eq by (rewrite find_open_eq; by eexists).
  apply lookup_insert_eq.
Qed.

Lemma match_any_app key (cs1 cs2 : CacheStorage) :
  Storage.match_any key (cs1 ++ cs2) =
  match Storage.match_any key cs1 with
  | Some r => Some r
  | None => Storage.match_any key cs2
  end.
Proof.
  induction cs1 as [|[n c] cs1 IH]; [done|]. simpl.
  by destruct (c !! key).
Qed.

Lemma match_any_update_hit name key (r : Response) (cs : CacheStorage) :
  is_Some (Storage.find name cs) →
  (∀ n c, (n, c) ∈ cs → n ≠ name → c !! key = None) →
  Storage.match_any key (Storage.update name (insert key r) cs) = Some r.
Proof.
  induction cs as [|[n c] cs IH]; intros [c0 Hfind] Hother; [done|].
  simpl in *. destruct (decide (n = name)) as [->|Hne]; simpl.
  - by rewrite lookup_insert_eq.
  - rewrite (Hother n c) by (done || apply list_elem_of_here).
    apply IH; [by eexists|].
    intros n' c' Hin. apply Hother. by apply list_elem_of_further.
Qed.

Lemma elem_of_open name (cs : CacheStorage) n (c : Cache) :
  (n, c) ∈ Storage.open name cs → (n, c) ∈ cs ∨ (n = name ∧ c = ∅).
Proof.
  unfold Storage.open. destruct (Storage.find name cs); [by left|].
  rewrite elem_of_app, list_elem_of_singleton. intros [?|[= -> ->]]; [by left|by right].
Qed.

Lemma handlePageRequest_online network (request : Request) (r : Response) (w : World) :
  network request = Some r →
  handlePageRequest network request w =
  (Resolved r,
   if status r =? 200 then
     {| caches :=
          if storable request r
          then Storage.update DYNAMIC_CACHE (insert (href (url request)) r)
                 (Storage.open DYNAMIC_CACHE (caches w))
          else Storage.open DYNAMIC_CACHE (caches w);
        clients := clients w; ticks := ticks w;
        trace := trace w ++ [ Fetch (href (url request)); CachesOpen DYNAMIC_CACHE;
                              CachePut DYNAMIC_CACHE (href (url request)) ] |}
   else
     {| caches := caches w; clients := clients w; ticks := ticks w;
        trace := trace w ++ [Fetch (href (url request))] |}).
Proof.
  intros Hnet. unfold handlePageRequest. w_step. rewrite Hnet.
  handler_cases; by rewrite <- ?app_assoc.
Qed.

Lemma handlePageRequest_offline network (request : Request) (w : World) :
  network request = None →
  handlePageRequest network request w =
  (Resolved (default offline_page
               (if is_GET request
                then Storage.match_any (href (url request)) (caches w) else None)),
   {| caches := caches w; clients := clients w; ticks := ticks w;
      trace := trace w ++ [ Fetch (href (url request));
                            CachesMatch (href (url request)) ] |}).
Proof.
  intros Hnet. unfold handlePageRequest. w_step. rewrite Hnet.
  handler_cases; by rewrite <- ?app_assoc.
Qed.

Lemma handleAPIRequest_online network (request : Request) (r : Response) (w : World) :
  network request = Some r →
  handleAPIRequest network request w =
  (Resolved r,
   if (status r =? 200) && is_GET request then
     {| caches :=
          if storable request r
          then Storage.update DYNAMIC_CACHE (insert (href (url request)) r)
                 (Storage.open DYNAMIC_CACHE (caches w))
          else Storage.open DYNAMIC_CACHE (caches w);
        clients := clients w; ticks := ticks w;
        trace := trace w ++ [ Fetch (href (url request)); CachesOpen DYNAMIC_CACHE;
                              CachePut DYNAMIC_CACHE (href (url request)) ] |}
   else
     {| caches := caches w; clients := clients w; ticks := ticks w;
        trace := trace w ++ [Fetch (href (url request))] |}).
Proof.
  intros Hnet. unfold handleAPIRequest. w_step. rewrite Hnet.
  handler_cases; by rewrite <- ?app_assoc.
Qed.

Lemma handleAPIRequest_offline network (request : Request) (w : World) :
  network request = None →
  handleAPIRequest network request w =
  (Resolved (default offline_error
               (if is_GET request
                then Storage.match_any (href (url request)) (caches w) else None)),
   {| caches := caches w; clients := clients w; ticks := ticks w;
      trace := trace w ++ Fetch (href (url request)) ::
                 if is_GET request then [CachesMatch (href (url request))] else [] |}).
Proof.
  intros Hnet. unfold handleAPIRequest. w_step. rewrite Hnet.
  handler_cases; by rewrite <- ?app_assoc.
Qed.

Lemma handleAssetRequest_hit network (request : Request) (cached : Response) (w : World) :
  is_GET request = true →
  Storage.match_any (href (url request)) (caches w) = Some cached →
  handleAssetRequest network request w =
  (Resolved cached,
   {| caches := caches w; clients := clients w; ticks := ticks w;
      trace := trace w ++ [CachesMatch (href (url request))] |}).
Proof.
  intros Hget Hhit. unfold handleAssetRequest. w_step. by rewrite Hget, Hhit.
Qed.

Lemma handleAssetRequest_miss network (request : Request) (w : World) :
  (if is_GET request then Storage.match_any (href (url request)) (caches w) else None)
    = None →
  handleAssetRequest network request w =
  match network request with
  | Some r =>
      (Resolved r,
       if status r =? 200 then
         {| caches :=
              if storable request r
              then Storage.update DYNAMIC_CACHE (insert (href (url request)) r)
                     (Storage.open DYNAMIC_CACHE (caches w))
              else Storage.open DYNAMIC_CACHE (caches w);
            clients := clients w; ticks := ticks w;
            trace := trace w ++ [ CachesMatch (href (url request));
                                  Fetch (href (url request)); CachesOpen DYNAMIC_CACHE;
                                  CachePut DYNAMIC_CACHE (href (url request)) ] |}
       else
         {| caches := caches w; clients := clients w; ticks := ticks w;
            trace := trace w ++ [ CachesMatch (href (url request));
                                  Fetch (href (url request)) ] |})
  | None =>
      (Rejected,
       {| caches := caches w; clients := clients w; ticks := ticks w;
          trace := trace w ++ [ CachesMatch (href (url request));
                                Fetch (href (url request)) ] |})
  end.
Proof.
  intros Hmiss. unfold handleAssetRequest. w_step. rewrite Hmiss. w_step.
  destruct (network request); handler_cases; by rewrite <- ?app_assoc.
Qed.

Lemma open_existing name (cs : CacheStorage) :
  is_Some (Storage.find name cs) → Storage.open name cs = cs.
Proof. intros [c Hc]. unfold Storage.open. by rewrite Hc. Qed.

Lemma open_app_absent name (pre rest : CacheStorage) :
  Storage.find name pre = None →
  Storage.open name (pre ++ rest) = pre ++ Storage.open name rest.
Proof.
  intros Hpre. unfold Storage.open. rewrite find_app, Hpre.
  destruct (Storage.find name rest); [done|]. by rewrite app_assoc.
Qed.

Lemma update_app_absent name f (pre rest : CacheStorage) :
  Storage.find name pre = None →
  Storage.update name f (pre ++ rest) = pre ++ Storage.update name f rest.
Proof.
  induction pre as [|[n c] pre IH]; intros Hpre; [done|]. simpl in *.
  destruct (decide (n = name)); [done|]. by rewrite IH.
Qed.

Lemma storable_is_GET (request : Request) (r : Response) :
  storable request r = true → is_GET request = true.
Proof. unfold storable. by destruct (is_GET request). Qed.

(** X5. [handleAssetRequest] rejects exactly when the request is found in no
    partition and the network fails; a response it resolves to is either
    the cached entry or the network's answer, never a synthesised one. *)
Theorem asset_rejects_exactly network (request : Request) (w : World) :
  (result (handleAssetRequest network request) w = Rejected ↔
   (if is_GET request then Storage.match_any (href (url request)) (caches w) else None)
     = None ∧
   network request = None) ∧
  (∀ r, result (handleAssetRequest network request) w = Resolved r →
        (is_GET request = true ∧
         Storage.match_any (href (url request)) (caches w) = Some r) ∨
        network request = Some r).
Proof.
  unfold result.
  destruct (if is_GET request then Storage.match_any (href (url request)) (caches w)
            else None) as [cached|] eqn:Hlook.
  - destruct (is_GET request) eqn:Hget; [|done].
    rewrite (handleAssetRequest_hit network request cached w Hget Hlook). simpl.
    split; [split; [done|by intros [? _]]|]. intros r [= <-]. by left.
  - rewrite (handleAssetRequest_miss network request w Hlook).
    destruct (network request) as [r|]; simpl.
    + split; [split; [done|by intros [_ ?]]|]. intros ? [= <-]. by right.
    + split; [done|]. by intros r.
Qed.

(** X6. Cache first: when some partition holds the request,
    [handleAssetRequest] answers with the first such entry, whatever the
    network would say; it makes no fetch and writes to no partition. *)
Theorem asset_hit_skips_network network (request : Request) (cached : Response)
    (w : World) :
  is_GET request = true →
  Storage.match_any (href (url request)) (caches w) = Some cached →
  result (handleAssetRequest network request) w = Resolved cached ∧
  caches (run (handleAssetRequest network request) w) = caches w ∧
  trace (run (handleAssetRequest network request) w) =
    trace w ++ [CachesMatch (href (url request))].
Proof.
  intros Hget Hhit. unfold result, run.
  by rewrite (handleAssetRequest_hit network request cached w Hget Hhit).
Qed.

(** X7. Network first: when the network answers, [handlePageRequest] and
    [handleAPIRequest] resolve to that answer whatever the partitions hold.
    An answer whose status is not 200 leaves the storage as it was; a
    storable answer of status 200 is afterwards the entry of the dynamic
    partition for the request's URL. *)
Theorem network_first_returns_live_response network (request : Request) (r : Response)
    (w : World) :
  network request = Some r →
  (result (handlePageRequest network request) w = Resolved r ∧
   result (handleAPIRequest network request) w = Resolved r) ∧
  (status r ≠ 200 →
   caches (run (handlePageRequest network request) w) = caches w ∧
   caches (run (handleAPIRequest network request) w) = caches w) ∧
  (status r = 200 → storable request r = true →
   Storage.entries DYNAMIC_CACHE (caches (run (handlePageRequest network request) w))
     !! href (url request) = Some r ∧
   Storage.entries DYNAMIC_CACHE (caches (run (handleAPIRequest network request) w))
     !! href (url request) = Some r).
Proof.
  intros Hnet. unfold result, run.
  rewrite (handlePageRequest_online network request r w Hnet).
  rewrite (handleAPIRequest_online network request r w Hnet). simpl.
  split_and!; try done.
  - intros Hst. apply Z.eqb_neq in Hst. by rewrite Hst.
  - intros Hst Hstore. rewrite Hst, Hstore, (storable_is_GET _ _ Hstore). simpl.
    split; apply entries_after_put.
Qed.

(** X8. On a miss answered by the network, [handleAssetRequest] resolves to
    the network's answer; the storage is unchanged unless the status is 200,
    and a storable answer of status 200 is afterwards in the dynamic
    partition. *)
Theorem asset_miss_fetches_and_stores network (request : Request) (r : Response)
    (w : World) :
  (if is_GET request then Storage.match_any (href (url request)) (caches w) else None)
    = None →
  network request = Some r →
  result (handleAssetRequest network request) w = Resolved r ∧
  (status r ≠ 200 → caches (run (handleAssetRequest network request) w) = caches w) ∧
  (status r = 200 → storable request r = true →
   Storage.entries DYNAMIC_CACHE (caches (run (handleAssetRequest network request) w))
     !! href (url request) = Some r).
Proof.
  intros Hmiss Hnet. unfold result, run.
  rewrite (handleAssetRequest_miss network request w Hmiss), Hnet. simpl.
  split_and!; try done.
  - intros Hst. apply Z.eqb_neq in Hst. by rewrite Hst.
  - intros -> Hstore. rewrite Hstore. simpl. apply entries_after_put.
Qed.

Lemma match_any_after_put key (r : Response) (cs : CacheStorage) :
  (∀ n c, (n, c) ∈ cs → n ≠ DYNAMIC_CACHE → c !! key = None) →
  Storage.match_any key
    (Storage.update DYNAMIC_CACHE (insert key r) (Storage.open DYNAMIC_CACHE cs)) = Some r.
Proof.
  intros Hother. apply match_any_update_hit.
  - rewrite find_open_eq. by eexists.
  - intros n c [Hin|[-> _]]%elem_of_open Hne; [by apply (Hother n c)|done].
Qed.

(** X9. Round trip: a storable answer of status 200 obtained by a
    network-first handler is what the same handler resolves to for the same
    request once the network fails, provided no partition other than the
    dynamic one held an entry for the URL. *)
Theorem stored_answer_served_offline up down (request : Request) (r : Response)
    (w : World) :
  up request = Some r →
  status r = 200 →
  storable request r = true →
  (∀ n (c : Cache), (n, c) ∈ caches w → n ≠ DYNAMIC_CACHE →
                    c !! href (url request) = None) →
  down request = None →
  result (handlePageRequest down request) (run (handlePageRequest up request) w)
    = Resolved r ∧
  result (handleAPIRequest down request) (run (handleAPIRequest up request) w)
    = Resolved r.
Proof.
  intros Hup Hst Hstore Hother Hdown. unfold result, run.
  rewrite (handlePageRequest_online up request r w Hup).
  rewrite (handleAPIRequest_online up request r w Hup).
  rewrite handlePageRequest_offline, handleAPIRequest_offline by done.
  rewrite Hst, Hstore, (storable_is_GET _ _ Hstore). simpl.
  by rewrite match_any_after_put.
Qed.

(** X10. [caches.match] consults the partitions in creation order: when a
    partition created before the dynamic one already holds an entry for the
    URL, the offline fallback of [handlePageRequest] serves that older entry
    even after a network answer for the URL was handled. *)
Theorem older_partition_shadows_dynamic up down (request : Request) (r old : Response)
    (pre rest : CacheStorage) (w : World) :
  caches w = pre ++ rest →
  Storage.find DYNAMIC_CACHE pre = None →
  Storage.match_any (href (url request)) pre = Some old →
  is_GET request = true →
  up request = Some r →
  down request = None →
  result (handlePageRequest down request) (run (handlePageRequest up request) w)
    = Resolved old.
Proof.
  intros Hcs Hpre Hold Hget Hup Hdown. unfold result, run.
  rewrite (handlePageRequest_online up request r w Hup).
  rewrite handlePageRequest_offline by done. rewrite Hget, Hcs. simpl.
  destruct (status r =? 200); simpl; [destruct (storable request r)|].
  - by rewrite open_app_absent, update_app_absent, match_any_app, Hold.
  - by rewrite open_app_absent, match_any_app, Hold.
  - by rewrite match_any_app, Hold.
Qed.

Lemma image_hit_run network (request : Request) (cached : Response) (w : World) :
  is_GET request = true →
  Storage.entries IMAGE_CACHE_NAME (caches w) !! href (url request) = Some cached →
  handleOptimizedImageRequest network request w =
  (Resolved cached,
   {| caches := Storage.open IMAGE_CACHE_NAME (caches w);
      clients := clients w; ticks := ticks w;
      trace := trace w ++ [ CachesOpen IMAGE_CACHE_NAME;
                            CacheMatch IMAGE_CACHE_NAME (href (url request)) ] |}).
Proof.
  intros Hget Hhit. unfold handleOptimizedImageRequest. w_step.
  rewrite entries_open, Hhit, Hget. by rewrite <- app_assoc.
Qed.

Lemma image_miss_run network (request : Request) (w : World) :
  (if is_GET request
   then Storage.entries IMAGE_CACHE_NAME (caches w) !! href (url request) else None)
    = None →
  handleOptimizedImageRequest network request w =
  let key := href (url request) in
  let opened := Storage.open IMAGE_CACHE_NAME (caches w) in
  let world cs t :=
    {| caches := cs; clients := clients w; ticks := ticks w;
       trace := trace w ++ [CachesOpen IMAGE_CACHE_NAME;
                            CacheMatch IMAGE_CACHE_NAME key; Fetch key] ++ t |} in
  match network (image_fetch_request request) with
  | Some response =>
      if status response =? 200 then
        if storable request (optimizedResponse response)
        then (Resolved (optimizedResponse response),
              world (Storage.update IMAGE_CACHE_NAME
                       (insert key (optimizedResponse response)) opened)
                    [CachePut IMAGE_CACHE_NAME key])
        else (Resolved placeholder_image,
              world opened [ CachePut IMAGE_CACHE_NAME key;
                             CachesOpen IMAGE_CACHE_NAME;
                             CacheMatch IMAGE_CACHE_NAME key ])
      else (Resolved response, world opened [])
  | None =>
      (Resolved placeholder_image,
       world opened [CachesOpen IMAGE_CACHE_NAME; CacheMatch IMAGE_CACHE_NAME key])
  end.
Proof.
  intros Hmiss. cbv zeta. unfold handleOptimizedImageRequest, image_fallback. w_step.
  rewrite entries_open, Hmiss. w_step.
  destruct (network (image_fetch_request request)) as [response|]; w_step.
  - destruct (status response =? 200); w_step; [|by rewrite <- !app_assoc].
    destruct (storable request (optimizedResponse response)); w_step.
    + by rewrite <- !app_assoc.
    + rewrite !entries_open, Hmiss, (open_existing IMAGE_CACHE_NAME (Storage.open _ _))
        by (rewrite find_open_eq; by eexists).
      by rewrite <- !app_assoc.
  - rewrite !entries_open, Hmiss, (open_existing IMAGE_CACHE_NAME (Storage.open _ _))
      by (rewrite find_open_eq; by eexists).
    by rewrite <- !app_assoc.
Qed.

(** X11. After the image handler has stored an answer, the next request for
    the same URL resolves to the stored response whatever the network does,
    with no further network call and no change to the storage. *)
Theorem image_served_from_cache_after_store first later (request : Request)
    (response : Response) (w : World) :
  is_GET request = true →
  is_http (url request) = true →
  Storage.entries IMAGE_CACHE_NAME (caches w) !! href (url request) = None →
  first (image_fetch_request request) = Some response →
  status response = 200 →
  let w1 := run (handleOptimizedImageRequest first request) w in
  result (handleOptimizedImageRequest later request) w1
    = Resolved (optimizedResponse response) ∧
  caches (run (handleOptimizedImageRequest later request) w1) = caches w1 ∧
  network_calls (trace (run (handleOptimizedImageRequest later request) w1))
    = network_calls (trace w1).
Proof.
  intros Hget Hhttp Hmiss Hnet Hst w1.
  assert (Storage.entries IMAGE_CACHE_NAME (caches w1) !! href (url request)
          = Some (optimizedResponse response) ∧
          is_Some (Storage.find IMAGE_CACHE_NAME (caches w1))) as [Hhit Hex].
  { subst w1. unfold run. rewrite image_miss_run by by rewrite Hget.
    cbv zeta. rewrite Hnet, Hst, (optimizedResponse_storable _ _ Hget Hhttp Hst). simpl.
    split; [apply entries_after_put|].
    rewrite find_update_eq, find_open_eq. by eexists. }
  unfold result, run.
  rewrite (image_hit_run later request _ w1 Hget Hhit). simpl.
  split_and!; [done|by apply open_existing|].
  unfold network_calls. by rewrite filter_app, length_app, Nat.add_0_r.
Qed.

(** X12. On a miss answered with a status other than 200 the image handler
    resolves to the network's answer as it is, neither re-wrapped nor
    replaced by the placeholder, and the entries of every partition are
    unchanged. *)
Theorem image_passes_on_other_statuses network (request : Request) (response : Response)
    (w : World) :
  Storage.entries IMAGE_CACHE_NAME (caches w) !! href (url request) = None →
  network (image_fetch_request request) = Some response →
  status response ≠ 200 →
  result (handleOptimizedImageRequest network request) w = Resolved response ∧
  ∀ name, Storage.entries name (caches (run (handleOptimizedImageRequest network request) w))
          = Storage.entries name (caches w).
Proof.
  intros Hmiss Hnet Hst. unfold result, run.
  rewrite image_miss_run by (rewrite Hmiss; by destruct (is_GET request)).
  cbv zeta. rewrite Hnet. apply Z.eqb_neq in Hst. rewrite Hst. simpl.
  split; [done|]. intros name. apply entries_open.
Qed.

(** X13. When the network answers with status 200 but [cache.put] refuses the
    request (it is not an http(s) GET), the rejection lands in the handler's
    [catch]: the network's answer is dropped, the placeholder is served, and
    nothing is stored. *)
Theorem image_refused_store_serves_placeholder network (request : Request)
    (response : Response) (w : World) :
  Storage.entries IMAGE_CACHE_NAME (caches w) !! href (url request) = None →
  network (image_fetch_request request) = Some response →
  status response = 200 →
  is_GET request && is_http (url request) = false →
  result (handleOptimizedImageRequest network request) w = Resolved placeholder_image ∧
  ∀ name, Storage.entries name (caches (run (handleOptimizedImageRequest network request) w))
          = Storage.entries name (caches w).
Proof.
  intros Hmiss Hnet Hst Hrefused. unfold result, run.
  rewrite image_miss_run by (rewrite Hmiss; by destruct (is_GET request)).
  cbv zeta. rewrite Hnet, Hst.
  assert (storable request (optimizedResponse response) = false) as ->.
  { unfold storable. by rewrite Hrefused. }
  simpl. split; [done|]. intros name. apply entries_open.
Qed.

(** X14. For a request that is not a GET, [handleAPIRequest] never touches
    the cache: it fetches, resolves to the network's answer or to the
    offline error, and leaves the storage as it was. *)
Theorem api_handler_skips_cache_for_other_methods network (request : Request) (w : World) :
  is_GET request = false →
  result (handleAPIRequest network request) w
    = Resolved (default offline_error (network request)) ∧
  caches (run (handleAPIRequest network request) w) = caches w ∧
  trace (run (handleAPIRequest network request) w) =
    trace w ++ [Fetch (href (url request))].
Proof.
  intros Hget. unfold result, run.
  destruct (network request) as [r|] eqn:Hnet.
  - rewrite (handleAPIRequest_online network request r w Hnet), Hget, andb_false_r.
    done.
  - rewrite (handleAPIRequest_offline network request w Hnet), Hget. done.
Qed.

(** ** Lifecycle, maintenance and messages on the remaining paths *)

(** X15. When one asset of the manifest cannot be fetched, or is answered
    with a status that is not ok, the install listener stores none of the
    assets: both partitions exist, the entries of every partition are as
    before, and [skipWaiting] is not called. *)
Theorem install_is_all_or_nothing network mkRequest (u : string) (w : World) :
  u ∈ STATIC_ASSETS →
  network (mkRequest u) = None ∨
    (∃ r, network (mkRequest u) = Some r ∧ ok_status r = false) →
  let w' := run (on_install network mkRequest) w in
  (∀ name, Storage.entries name (caches w') = Storage.entries name (caches w)) ∧
  is_Some (Storage.find STATIC_CACHE (caches w')) ∧
  is_Some (Storage.find IMAGE_CACHE_NAME (caches w')) ∧
  trace w' = trace w ++
    [ CachesOpen STATIC_CACHE; CachesOpen IMAGE_CACHE_NAME;
      CacheAddAll STATIC_CACHE STATIC_ASSETS ] ++
    ((fun a => Fetch (href (url (mkRequest a)))) <$> STATIC_ASSETS).
Proof.
  intros Hu Hfail w'. subst w'. unfold on_install. rewrite !run_bind.
  set (w1 := run (caches_open IMAGE_CACHE_NAME) (run (caches_open STATIC_CACHE) w)).
  assert (is_Some (Storage.find STATIC_CACHE (caches w1))) as Hstatic.
  { subst w1. w_step. rewrite find_open_ne by done. rewrite find_open_eq. by eexists. }
  assert (is_Some (Storage.find IMAGE_CACHE_NAME (caches w1))) as Himage.
  { subst w1. w_step. rewrite find_open_eq. by eexists. }
  destruct (Cache_addAll_spec network mkRequest STATIC_CACHE STATIC_ASSETS w1 Hstatic)
    as (Hres & _ & _ & Htr).
  assert (mapM (addAll_entry network mkRequest) STATIC_ASSETS = None) as Hnone.
  { apply mapM_None_2, Exists_exists. exists u. split; [done|].
    unfold addAll_entry. destruct Hfail as [->|(r & -> & Hok)]; [done|by rewrite Hok]. }
  rewrite Hnone in Hres. destruct Hres as [-> Hcs].
  set (w2 := run (Cache_addAll network mkRequest STATIC_CACHE STATIC_ASSETS) w1) in *.
  change (run skip w2) with w2. rewrite Hcs, Htr.
  split_and!; try done.
  - intros name. subst w1. w_step. by rewrite !entries_open.
  - subst w1. w_step. by rewrite <- !app_assoc.
Qed.

(** X16. The sweep removes exactly the expired entries: the image partition
    afterwards is the old one filtered by [expired] at the sweep's reading
    of the clock, so entries with a missing, empty or unreadable [date] stay;
    no other partition changes. *)
Theorem sweep_removes_exactly_the_expired clock Date_getTime (w : World) :
  let w' := run (doBackgroundSync clock Date_getTime) w in
  let oneWeekAgo := clock (ticks w) - ONE_WEEK in
  Storage.entries IMAGE_CACHE_NAME (caches w') =
    filter (fun entry => expired Date_getTime oneWeekAgo entry.2 = false)
           (Storage.entries IMAGE_CACHE_NAME (caches w)) ∧
  ∀ name, name ≠ IMAGE_CACHE_NAME →
          Storage.entries name (caches w') = Storage.entries name (caches w).
Proof.
  cbv zeta. unfold doBackgroundSync. rewrite !run_bind.
  match goal with
  | |- context [run (forEach ?l (sweep_entry _ ?t)) ?w0] =>
      change t with (clock (ticks w) - ONE_WEEK);
      destruct (sweep_loop Date_getTime (clock (ticks w) - ONE_WEEK) l w0)
        as (Hl & Hframe & _);
      set (l0 := l) in *; set (w2 := w0) in *;
      set (w3 := run (forEach l0 (sweep_entry Date_getTime
                                    (clock (ticks w) - ONE_WEEK))) w2) in *
  end.
  rewrite broadcast_loop. cbn [caches].
  change (caches (run clients_matchAll w3)) with (caches w3).
  assert (Storage.entries IMAGE_CACHE_NAME (caches w2) =
          Storage.entries IMAGE_CACHE_NAME (caches w)) as Hent
    by (subst w2; w_step; apply entries_open).
  split.
  - apply map_eq. intros key. rewrite Hl, map_lookup_filter, Hent.
    destruct (Storage.entries IMAGE_CACHE_NAME (caches w) !! key) as [r|] eqn:E;
      simpl; [|done].
    assert (key ∈ l0) as Hin.
    { subst l0. w_step. rewrite entries_open.
      apply list_elem_of_fmap. exists (key, r). split; [done|].
      by apply elem_of_map_to_list. }
    rewrite bool_decide_true by done. simpl.
    case_guard as Hguard; simpl; [by rewrite Hguard|].
    by destruct (expired _ _ r).
  - intros name Hne. unfold Storage.entries. rewrite Hframe by done.
    subst w2. w_step. by rewrite find_open_ne.
Qed.

(** X17. From any world, [GET_CACHE_SIZE] replies once on the first port with
    the number of entries of the dynamic partition, of the image partition,
    and their sum; the entries of every partition are unchanged. *)
Theorem cache_size_reports_partition_sizes network mkRequest (event : MessageEvent)
    (port : string) (w : World) :
  data_type event = "GET_CACHE_SIZE" →
  ports event !! 0%nat = Some port →
  let w' := run (on_message network mkRequest event) w in
  let dynamicCacheSize := size (Storage.entries DYNAMIC_CACHE (caches w)) in
  let imageCacheSize := size (Storage.entries IMAGE_CACHE_NAME (caches w)) in
  trace w' = trace w ++
    [ CachesOpen DYNAMIC_CACHE; CachesOpen IMAGE_CACHE_NAME;
      CacheKeys DYNAMIC_CACHE; CacheKeys IMAGE_CACHE_NAME;
      PostMessage (ToPort port)
        (CacheSize dynamicCacheSize imageCacheSize
                   (dynamicCacheSize + imageCacheSize)) ] ∧
  ∀ name, Storage.entries name (caches w') = Storage.entries name (caches w).
Proof.
  intros Htype Hport. cbv zeta. unfold on_message. rewrite Htype.
  cbn [String.eqb Ascii.eqb Bool.eqb].
  destruct (ports event) as [|p ps] eqn:Hports; [done|]. injection Hport as ->.
  w_step. rewrite Hports. w_step.
  rewrite !entries_open, !length_fmap, !length_map_to_list. split.
  - by rewrite <- !app_assoc.
  - intros name. by rewrite !entries_open.
Qed.

Lemma cache_recipe_run network mkRequest (u : string) (w : World) :
  Str.truthy u = true →
  run (on_message network mkRequest (cacheResource_message u)) w =
  {| caches :=
       match addAll_entry network mkRequest u with
       | Some e => Storage.update DYNAMIC_CACHE (insert e.1 e.2)
                     (Storage.open DYNAMIC_CACHE (caches w))
       | None => Storage.open DYNAMIC_CACHE (caches w)
       end;
     clients := clients w; ticks := ticks w;
     trace := trace w ++ [ CachesOpen DYNAMIC_CACHE; CacheAddAll DYNAMIC_CACHE [u];
                           Fetch (href (url (mkRequest u))) ] |}.
Proof.
  intros Hu. unfold on_message, cacheResource_message.
  cbn [data_type data_payload payload_url String.eqb Ascii.eqb Bool.eqb].
  rewrite Hu. unfold Cache_addAll. cbn [forEach mapM]. w_step.
  destruct (addAll_entry network mkRequest u) as [e|]; w_step;
    by rewrite <- !app_assoc.
Qed.


(** X19. A [CACHE_RECIPE] message whose URL cannot be fetched, or is answered
    with a status that is not ok, leaves the entries of every partition as
    they were and posts no message. *)
Theorem failed_cache_recipe_stores_nothing network mkRequest (u : string) (w : World) :
  network (mkRequest u) = None ∨
    (∃ r, network (mkRequest u) = Some r ∧ ok_status r = false) →
  let w1 := run (on_message network mkRequest (cacheResource_message u)) w in
  (∀ name, Storage.entries name (caches w1) = Storage.entries name (caches w)) ∧
  Forall (fun e => match e with PostMessage _ _ => False | _ => True end)
         (drop (length (trace w)) (trace w1)).
Proof.
  intros Hfail w1. subst w1.
  destruct (Str.truthy u) eqn:Hu.
  - rewrite cache_recipe_run by done.
    assert (addAll_entry network mkRequest u = None) as ->.
    { unfold addAll_entry. destruct Hfail as [->|(r & -> & Hok)]; [done|by rewrite Hok]. }
    simpl. split; [intros name; apply entries_open|].
    rewrite drop_app_length. by repeat constructor.
  - destruct u; [|done]. simpl. split; [done|].
    rewrite drop_all. constructor.
Qed.

Section Preload.
Variable network : Request → option Response.
Variable mkRequest : string → Request.

Lemma preload_image_run (u : string) (w : World) :
  run (preload_image network mkRequest u) w =
  {| caches :=
       match network (mkRequest u) with
       | Some response =>
           if (status response =? 200) && storable (mkRequest u) response
           then Storage.update IMAGE_CACHE_NAME
                  (insert (href (url (mkRequest u))) response) (caches w)
           else caches w
       | None => caches w
       end;
     clients := clients w; ticks := ticks w;
     trace := trace w ++ Fetch (href (url (mkRequest u))) ::
       match network (mkRequest u) with
       | Some response =>
           if status response =? 200
           then [CachePut IMAGE_CACHE_NAME (href (url (mkRequest u)))] else []
       | None => []
       end |}.
Proof.
  unfold preload_image. w_step.
  destruct (network (mkRequest u)) as [response|]; w_step; [|done].
  destruct (status response =? 200); w_step; [|done].
  destruct (storable (mkRequest u) response); w_step; by rewrite <- app_assoc.
Qed.

Lemma preload_loop (urls : list string) (w : World) :
  is_Some (Storage.find IMAGE_CACHE_NAME (caches w)) →
  let w' := run (forEach urls (preload_image network mkRequest)) w in
  is_Some (Storage.find IMAGE_CACHE_NAME (caches w')) ∧
  (∀ name, name ≠ IMAGE_CACHE_NAME →
           Storage.find name (caches w') = Storage.find name (caches w)) ∧
  ∀ key,
    (∃ u r, u ∈ urls ∧ href (url (mkRequest u)) = key ∧ preloadable network mkRequest u r ∧
            Storage.entries IMAGE_CACHE_NAME (caches w') !! key = Some r) ∨
    ((∀ u r, u ∈ urls → href (url (mkRequest u)) = key → ¬ preloadable network mkRequest u r) ∧
     Storage.entries IMAGE_CACHE_NAME (caches w') !! key =
     Storage.entries IMAGE_CACHE_NAME (caches w) !! key).
Proof.
  revert w. induction urls as [|x urls IH]; intros w Hex; cbv zeta.
  - split; [done|]. split; [done|]. intros key. right.
    split; [by intros u r ?%elem_of_nil|done].
  - cbn [forEach]. rewrite run_bind.
    set (w1 := run (preload_image network mkRequest x) w).
    assert (is_Some (Storage.find IMAGE_CACHE_NAME (caches w1)) ∧
            (∀ name, name ≠ IMAGE_CACHE_NAME →
                     Storage.find name (caches w1) = Storage.find name (caches w)) ∧
            ∀ key,
              (∃ r, href (url (mkRequest x)) = key ∧ preloadable network mkRequest x r ∧
                    Storage.entries IMAGE_CACHE_NAME (caches w1) !! key = Some r) ∨
              ((∀ r, href (url (mkRequest x)) = key → ¬ preloadable network mkRequest x r) ∧
               Storage.entries IMAGE_CACHE_NAME (caches w1) !! key =
               Storage.entries IMAGE_CACHE_NAME (caches w) !! key))
      as (Hex1 & Hframe1 & Hx).
    { subst w1. rewrite preload_image_run. cbn [caches]. unfold preloadable.
      destruct (network (mkRequest x)) as [response|];
        [|split_and!; [done..|]; intros key; right; by split; [intros r _ [? _]|]].
      destruct (status response =? 200) eqn:Hst; simpl;
        [|split_and!; [done..|]; intros key; right; split; [|done];
          intros r _ ([= <-] & Hr & _); apply Z.eqb_neq in Hst; done].
      destruct (storable (mkRequest x) response) eqn:Hstore;
        [|split_and!; [done..|]; intros key; right; split; [|done];
          intros r _ ([= <-] & _ & Hr); congruence].
      apply Z.eqb_eq in Hst. split_and!.
      - rewrite find_update_eq. destruct Hex as [c ->]. by eexists.
      - intros name Hne. by rewrite find_update_ne.
      - intros key. rewrite entries_update_eq by done.
        destruct (decide (href (url (mkRequest x)) = key)) as [<-|Hne].
        + left. exists response. by rewrite lookup_insert_eq.
        + right. split; [done|]. by rewrite lookup_insert_ne. }
    destruct (IH w1 Hex1) as (Hex' & Hframe' & Hkeys). split_and!; [done| |].
    + intros name Hne. by rewrite Hframe', Hframe1.
    + intros key. destruct (Hkeys key) as [(u & r & Hu & Hk & Hs & He)|[Hno He]].
      * left. exists u, r. split; [by apply list_elem_of_further|done].
      * destruct (Hx key) as [(r & Hk & Hs & He1)|[Hnox He1]].
        -- left. exists x, r. split; [apply list_elem_of_here|].
           split_and!; [done..|]. by rewrite He, He1.
        -- right. split; [|by rewrite He, He1].
           intros u r [->|Hu]%elem_of_cons Hk; [by apply Hnox|by apply Hno].
Qed.

(** X20. [PRELOAD_IMAGES] stores each image on its own: whatever happens to
    the other URLs of the batch, a URL fetched with a storable answer of
    status 200 has an entry in the image partition afterwards, holding the
    answer unchanged of a URL of the batch with the same key; no other
    partition changes. *)
Theorem preload_stores_each_fetched_image (event : MessageEvent) (payload : Payload)
    (urls : list string) (u : string) (r : Response) (w : World) :
  data_type event = "PRELOAD_IMAGES" →
  data_payload event = Some payload →
  payload_urls payload = Some urls →
  u ∈ urls →
  network (mkRequest u) = Some r →
  status r = 200 →
  storable (mkRequest u) r = true →
  let w' := run (on_message network mkRequest event) w in
  (∃ u' r', u' ∈ urls ∧ href (url (mkRequest u')) = href (url (mkRequest u)) ∧
            network (mkRequest u') = Some r' ∧ status r' = 200 ∧
            Storage.entries IMAGE_CACHE_NAME (caches w') !! href (url (mkRequest u))
              = Some r') ∧
  ∀ name, name ≠ IMAGE_CACHE_NAME →
          Storage.entries name (caches w') = Storage.entries name (caches w).
Proof.
  intros Htype Hpayload Hurls Hu Hnet Hst Hstore w'. subst w'.
  unfold on_message. rewrite Htype, Hpayload, Hurls.
  cbn [String.eqb Ascii.eqb Bool.eqb]. rewrite run_bind.
  set (w0 := run (caches_open IMAGE_CACHE_NAME) w).
  destruct (preload_loop urls w0) as (_ & Hframe & Hkeys).
  { subst w0. w_step. rewrite find_open_eq. by eexists. }
  split.
  - destruct (Hkeys (href (url (mkRequest u)))) as [(u' & r' & ? & ? & (? & ? & ?) & ?)|[Hno _]].
    + by exists u', r'.
    + destruct (Hno u r Hu eq_refl). by split_and!.
  - intros name Hne. unfold Storage.entries. rewrite Hframe by done.
    subst w0. w_step. by rewrite find_open_ne.
Qed.

End Preload.

(** ** The extension pattern and the push listener *)

Lemma startsWith_refl (s : string) : Str.startsWith s s = true.
Proof. induction s as [|c s IH]; [done|]. simpl. by rewrite Ascii.eqb_refl. Qed.

Lemma length_toLowerCase (s : string) :
  String.length (Str.toLowerCase s) = String.length s.
Proof. induction s as [|c s IH]; [done|]. simpl. by rewrite IH. Qed.

Lemma drop_length (s : string) : Str.drop (String.length s) s = "".
Proof. by induction s. Qed.

Lemma extension_at_exact (ext : string) :
  Str.toLowerCase ext ∈ IMAGE_EXTENSIONS → extension_at ext = true.
Proof.
  intros Hin. unfold extension_at. apply existsb_exists.
  exists (Str.toLowerCase ext). split; [by apply list_elem_of_In|].
  by rewrite startsWith_refl, length_toLowerCase, drop_length.
Qed.

Lemma image_extension_test_suffix (stem ext : string) :
  extension_at ext = true →
  image_extension_test (stem +:+ "." +:+ ext) = true.
Proof.
  intros Hext. induction stem as [|c stem IH].
  - change (Ascii.eqb "." "." && extension_at ext || image_extension_test ext = true).
    by rewrite Hext.
  - change (Ascii.eqb c "." && extension_at (stem +:+ "." +:+ ext)
            || image_extension_test (stem +:+ "." +:+ ext) = true).
    rewrite IH. apply orb_true_r.
Qed.

(** X21. A path that ends in a dot and one of the six image extensions, in
    any letter case, is an image request. *)
Theorem image_extensions_ignore_case (u : URL) (stem ext : string) :
  Str.toLowerCase ext ∈ IMAGE_EXTENSIONS →
  pathname u = stem +:+ "." +:+ ext →
  isImageRequest u = true.
Proof.
  intros Hext Hpath. unfold isImageRequest.
  by rewrite Hpath, image_extension_test_suffix by by apply extension_at_exact.
Qed.


(** ** What the listener can fail on, and the names of the partitions *)

Lemma dispatch_Some_GET (request : Request) (s : Strategy) :
  fetch_dispatch request = Some s → is_GET request = true.
Proof.
  unfold fetch_dispatch, is_GET. by destruct (String.eqb (method request) "GET").
Qed.

Lemma fallback_handlers_respond network (request : Request) (w : World) :
  result (handlePageRequest network request) w ≠ Rejected ∧
  result (handleOptimizedImageRequest network request) w ≠ Rejected ∧
  result (handleAPIRequest network request) w ≠ Rejected.
Proof.
  split_and!.
  - unfold handlePageRequest. w_step.
    destruct (network request); handler_cases; done.
  - unfold handleOptimizedImageRequest, image_fallback. handler_cases; try done.
    all: destruct (network (image_fetch_request request)); handler_cases; done.
  - unfold handleAPIRequest. w_step.
    destruct (network request); handler_cases; done.
Qed.

(** X4. The answer given to [respondWith] rejects only for a request of the
    asset strategy that is in no partition while the network fails; the
    page, image and API strategies always resolve to a response. *)
Theorem only_asset_requests_can_fail network (request : Request) (w : World) :
  result (on_fetch network request) w = Some Rejected →
  fetch_dispatch request = Some AssetStrategy ∧
  Storage.match_any (href (url request)) (caches w) = None ∧
  network request = None.
Proof.
  unfold on_fetch. destruct (fetch_dispatch request) as [s|] eqn:Hd; [|done].
  rewrite result_bind. change (result (mret ?x) _) with x. intros [= Hrej].
  pose proof (dispatch_Some_GET _ _ Hd) as Hget.
  destruct (fallback_handlers_respond network request w) as (Hp & Hi & Ha).
  destruct s; cbn [run_strategy] in Hrej; [done..|]. split; [done|].
  unfold result in Hrej.
  destruct (Storage.match_any (href (url request)) (caches w)) as [cached|] eqn:Hlook.
  - by rewrite (handleAssetRequest_hit network request cached w Hget Hlook) in Hrej.
  - rewrite handleAssetRequest_miss in Hrej by by rewrite Hget.
    by destruct (network request).
Qed.

Lemma keys_open name (cs : CacheStorage) n :
  n ∈ Storage.keys (Storage.open name cs) → n ∈ Storage.keys cs ∨ n = name.
Proof.
  unfold Storage.open, Storage.keys. destruct (Storage.find name cs); [by left|].
  rewrite fmap_app, elem_of_app. intros [Hn|Hn]; [by left|].
  right. by apply list_elem_of_singleton in Hn.
Qed.

Lemma keys_delete name (cs : CacheStorage) n :
  n ∈ Storage.keys (Storage.delete name cs) → n ∈ Storage.keys cs.
Proof.
  unfold Storage.delete, Storage.keys.
  intros (p & -> & Hp)%list_elem_of_fmap. apply list_elem_of_filter in Hp as [_ Hp].
  by apply list_elem_of_fmap_2.
Qed.

Section Names.
Variable names : list string.

Lemma creates_ret {A} (a : A) : creates_only names (mret a).
Proof. intros w n Hn. by left. Qed.

Lemma creates_bind {A B} (m : W A) (f : A → W B) :
  creates_only names m → (∀ a, creates_only names (f a)) →
  creates_only names (m ≫= f).
Proof.
  intros Hm Hf w n Hn. rewrite run_bind in Hn.
  apply Hf in Hn as [Hn|Hn]; [by apply Hm|by right].
Qed.

Lemma creates_skip : creates_only names skip.
Proof. intros w n Hn. by left. Qed.

Lemma creates_emit e : creates_only names (emit e).
Proof. intros w n Hn. by left. Qed.

Lemma creates_fetch network request : creates_only names (fetch network request).
Proof. intros w n Hn. by left. Qed.

Lemma creates_Date_now clock : creates_only names (Date_now clock).
Proof. intros w n Hn. by left. Qed.

Lemma creates_caches_open name : name ∈ names → creates_only names (caches_open name).
Proof.
  intros Hname w n Hn. apply keys_open in Hn as [Hn| ->]; [by left|by right].
Qed.

Lemma creates_caches_keys : creates_only names caches_keys.
Proof. intros w n Hn. by left. Qed.

Lemma creates_caches_match request : creates_only names (caches_match request).
Proof. intros w n Hn. by left. Qed.

Lemma creates_caches_delete name : creates_only names (caches_delete name).
Proof. intros w n Hn. left. by apply keys_delete in Hn. Qed.

Lemma creates_Cache_lookup name key : creates_only names (Cache_lookup name key).
Proof. intros w n Hn. by left. Qed.

Lemma creates_Cache_match name request : creates_only names (Cache_match name request).
Proof. intros w n Hn. by left. Qed.

Lemma creates_Cache_keys name : creates_only names (Cache_keys name).
Proof. intros w n Hn. by left. Qed.

Lemma creates_Cache_put name request response :
  creates_only names (Cache_put name request response).
Proof.
  intros w n Hn. left. revert Hn. w_step.
  destruct (storable request response); w_step; [|done]. by rewrite keys_update.
Qed.

Lemma creates_Cache_delete name key : creates_only names (Cache_delete name key).
Proof. intros w n Hn. left. revert Hn. w_step. by rewrite keys_update. Qed.

Lemma creates_Cache_addAll network mkRequest name urls :
  creates_only names (Cache_addAll network mkRequest name urls).
Proof.
  intros w n Hn. left. revert Hn. unfold Cache_addAll.
  rewrite !run_bind, forEach_emit.
  destruct (mapM _ urls); w_step; [|done]. by rewrite keys_update.
Qed.

Lemma creates_postMessage to m : creates_only names (postMessage to m).
Proof. intros w n Hn. by left. Qed.

Lemma creates_reply event m : creates_only names (reply event m).
Proof. intros w n Hn. left. revert Hn. unfold reply. by destruct (ports event). Qed.

Lemma creates_skipWaiting : creates_only names skipWaiting.
Proof. intros w n Hn. by left. Qed.

Lemma creates_clients_claim : creates_only names clients_claim.
Proof. intros w n Hn. by left. Qed.

Lemma creates_clients_matchAll : creates_only names clients_matchAll.
Proof. intros w n Hn. by left. Qed.

Lemma creates_forEach {A} (l : list A) (f : A → W ()) :
  (∀ x, creates_only names (f x)) → creates_only names (forEach l f).
Proof.
  intros Hf. induction l as [|x l IH]; [by intros w n Hn; left|].
  cbn [forEach]. apply creates_bind; [apply Hf|by intros _].
Qed.

End Names.

Create HintDb names.
#[local] Hint Resolve creates_ret creates_skip creates_emit creates_fetch
  creates_Date_now creates_caches_open creates_caches_keys creates_caches_match
  creates_caches_delete creates_Cache_lookup creates_Cache_match creates_Cache_keys
  creates_Cache_put creates_Cache_delete creates_Cache_addAll creates_postMessage
  creates_reply creates_skipWaiting creates_clients_claim creates_clients_matchAll
  : names.
#[local] Hint Extern 1 (_ ∈ CURRENT_CACHES) =>
  unfold CURRENT_CACHES; rewrite !elem_of_cons; tauto : names.

Ltac names_frame :=
  repeat first
    [ solve [auto with names]
    | match goal with
      | |- creates_only _ (match ?x with _ => _ end) => destruct x
      | |- creates_only _ (_ ≫= _) => apply creates_bind; [|intros ?]
      | |- creates_only _ (forEach _ _) => apply creates_forEach; intros ?
      end
    | progress cbv zeta ].

Lemma handle_event_creates_only_current network clock Date_getTime mkRequest e :
  creates_only CURRENT_CACHES (handle_event network clock Date_getTime mkRequest e).
Proof.
  destruct e as [| |request|tag|event]; cbn [handle_event].
  - unfold on_install. names_frame.
  - unfold on_activate, delete_if_stale. names_frame.
  - unfold on_fetch, run_strategy, handlePageRequest, handleOptimizedImageRequest,
      image_fallback, handleAPIRequest, handleAssetRequest. names_frame.
  - unfold on_sync, doBackgroundSync, sweep_entry. names_frame.
  - unfold on_message, preload_image. names_frame.
Qed.

(** X24. The worker creates partitions under the three current names only:
    from a world whose partitions all bear current names, every world it
    reaches has partitions of current names only. *)
Theorem reachable_partitions_are_current clock Date_getTime mkRequest (w0 w : World) :
  (∀ n, n ∈ Storage.keys (caches w0) → n ∈ CURRENT_CACHES) →
  reachable clock Date_getTime mkRequest w0 w →
  ∀ n, n ∈ Storage.keys (caches w) → n ∈ CURRENT_CACHES.
Proof.
  intros H0 Hreach. induction Hreach as [|network e w _ IH]; [done|].
  intros n Hn. apply handle_event_creates_only_current in Hn as [Hn|Hn]; [by apply IH|done].
Qed.

(** ** Concrete runs of the further properties *)

Lemma auth_routes_bypass_witness :
  fetch_dispatch Sample.backend_auth_request = None ∧
  result (on_fetch Sample.online Sample.backend_auth_request) Sample.used = None ∧
  run (on_fetch Sample.online Sample.backend_auth_request) Sample.used = Sample.used.
Proof.
  apply (auth_routes_bypass Sample.online Sample.backend_auth_request Sample.used);
    reflexivity.
Defined.

Lemma backend_requests_are_images_witness :
  fetch_dispatch Sample.backend_rest_request = Some ImageStrategy.
Proof.
  apply (backend_requests_are_images Sample.backend_rest_request);
    [reflexivity|discriminate|reflexivity|reflexivity|discriminate].
Defined.

(** A stylesheet that is in no partition, requested while offline. *)
Lemma only_asset_requests_can_fail_witness :
  fetch_dispatch Sample.stylesheet_request = Some AssetStrategy ∧
  Storage.match_any (href (url Sample.stylesheet_request)) (caches Sample.fresh) = None ∧
  Sample.offline Sample.stylesheet_request = None.
Proof.
  apply (only_asset_requests_can_fail Sample.offline Sample.stylesheet_request
           Sample.fresh).
  reflexivity.
Defined.

Lemma asset_hit_skips_network_witness :
  result (handleAssetRequest Sample.online Sample.posts_request) Sample.used
    = Resolved offline_error ∧
  caches (run (handleAssetRequest Sample.online Sample.posts_request) Sample.used)
    = caches Sample.used ∧
  trace (run (handleAssetRequest Sample.online Sample.posts_request) Sample.used)
    = trace Sample.used ++ [CachesMatch (href (url Sample.posts_request))].
Proof.
  apply (asset_hit_skips_network Sample.online Sample.posts_request offline_error
           Sample.used); [reflexivity|by vm_compute].
Defined.

Lemma network_first_returns_live_response_witness :
  (result (handlePageRequest Sample.online Sample.page_request) Sample.fresh
     = Resolved (Sample.response_to Sample.page_request) ∧
   result (handleAPIRequest Sample.online Sample.page_request) Sample.fresh
     = Resolved (Sample.response_to Sample.page_request)) ∧
  (status (Sample.response_to Sample.page_request) ≠ 200 →
   caches (run (handlePageRequest Sample.online Sample.page_request) Sample.fresh)
     = caches Sample.fresh ∧
   caches (run (handleAPIRequest Sample.online Sample.page_request) Sample.fresh)
     = caches Sample.fresh) ∧
  (status (Sample.response_to Sample.page_request) = 200 →
   storable Sample.page_request (Sample.response_to Sample.page_request) = true →
   Storage.entries DYNAMIC_CACHE
     (caches (run (handlePageRequest Sample.online Sample.page_request) Sample.fresh))
     !! href (url Sample.page_request) = Some (Sample.response_to Sample.page_request) ∧
   Storage.entries DYNAMIC_CACHE
     (caches (run (handleAPIRequest Sample.online Sample.page_request) Sample.fresh))
     !! href (url Sample.page_request) = Some (Sample.response_to Sample.page_request)).
Proof.
  apply (network_first_returns_live_response Sample.online Sample.page_request
           (Sample.response_to Sample.page_request) Sample.fresh).
  reflexivity.
Defined.

Lemma asset_miss_fetches_and_stores_witness :
  result (handleAssetRequest Sample.online Sample.stylesheet_request) Sample.fresh
    = Resolved (Sample.response_to Sample.stylesheet_request) ∧
  (status (Sample.response_to Sample.stylesheet_request) ≠ 200 →
   caches (run (handleAssetRequest Sample.online Sample.stylesheet_request) Sample.fresh)
     = caches Sample.fresh) ∧
  (status (Sample.response_to Sample.stylesheet_request) = 200 →
   storable Sample.stylesheet_request (Sample.response_to Sample.stylesheet_request)
     = true →
   Storage.entries DYNAMIC_CACHE
     (caches (run (handleAssetRequest Sample.online Sample.stylesheet_request)
                  Sample.fresh))
     !! href (url Sample.stylesheet_request)
   = Some (Sample.response_to Sample.stylesheet_request)).
Proof.
  apply (asset_miss_fetches_and_stores Sample.online Sample.stylesheet_request
           (Sample.response_to Sample.stylesheet_request) Sample.fresh);
    reflexivity.
Defined.

(** A page fetched while online and asked for again while offline. *)
Lemma stored_answer_served_offline_witness :
  result (handlePageRequest Sample.offline Sample.page_request)
         (run (handlePageRequest Sample.online Sample.page_request) Sample.fresh)
    = Resolved (Sample.response_to Sample.page_request) ∧
  result (handleAPIRequest Sample.offline Sample.page_request)
         (run (handleAPIRequest Sample.online Sample.page_request) Sample.fresh)
    = Resolved (Sample.response_to Sample.page_request).
Proof.
  apply (stored_answer_served_offline Sample.online Sample.offline Sample.page_request
           (Sample.response_to Sample.page_request) Sample.fresh);
    try reflexivity.
  intros n c Hin. by apply elem_of_nil in Hin.
Defined.

(** The start page was stored at install time; the copy fetched later is not
    the one served offline. *)
Lemma older_partition_shadows_dynamic_witness :
  result (handlePageRequest Sample.offline Sample.page_request)
         (run (handlePageRequest Sample.online Sample.page_request) Sample.installed)
    = Resolved Sample.first_shell.
Proof.
  apply (older_partition_shadows_dynamic Sample.online Sample.offline
           Sample.page_request (Sample.response_to Sample.page_request)
           Sample.first_shell
           [(STATIC_CACHE, {[ "https://acwhisk.app/" := Sample.first_shell ]})]
           [(IMAGE_CACHE_NAME, ∅)] Sample.installed);
    reflexivity.
Defined.

Lemma image_served_from_cache_after_store_witness :
  result (handleOptimizedImageRequest Sample.offline Sample.image_request)
         (run (handleOptimizedImageRequest Sample.online Sample.image_request)
              Sample.fresh)
    = Resolved (optimizedResponse (Sample.response_to Sample.image_request)) ∧
  caches (run (handleOptimizedImageRequest Sample.offline Sample.image_request)
              (run (handleOptimizedImageRequest Sample.online Sample.image_request)
                   Sample.fresh))
    = caches (run (handleOptimizedImageRequest Sample.online Sample.image_request)
                  Sample.fresh) ∧
  network_calls
    (trace (run (handleOptimizedImageRequest Sample.offline Sample.image_request)
                (run (handleOptimizedImageRequest Sample.online Sample.image_request)
                     Sample.fresh)))
    = network_calls
        (trace (run (handleOptimizedImageRequest Sample.online Sample.image_request)
                    Sample.fresh)).
Proof.
  apply (image_served_from_cache_after_store Sample.online Sample.offline
           Sample.image_request (Sample.response_to Sample.image_request)
           Sample.fresh);
    reflexivity.
Defined.

Lemma image_passes_on_other_statuses_witness :
  result (handleOptimizedImageRequest Sample.not_found Sample.image_request) Sample.fresh
    = Resolved Sample.not_found_response ∧
  ∀ name,
    Storage.entries name
      (caches (run (handleOptimizedImageRequest Sample.not_found Sample.image_request)
                   Sample.fresh))
    = Storage.entries name (caches Sample.fresh).
Proof.
  apply (image_passes_on_other_statuses Sample.not_found Sample.image_request
           Sample.not_found_response Sample.fresh);
    [reflexivity|reflexivity|discriminate].
Defined.

(** The extension-internal image, with the network up. *)
Lemma image_refused_store_serves_placeholder_witness :
  result (handleOptimizedImageRequest Sample.online Sample.moz_extension_request)
         Sample.fresh
    = Resolved placeholder_image ∧
  ∀ name,
    Storage.entries name
      (caches (run (handleOptimizedImageRequest Sample.online
                      Sample.moz_extension_request) Sample.fresh))
    = Storage.entries name (caches Sample.fresh).
Proof.
  apply (image_refused_store_serves_placeholder Sample.online
           Sample.moz_extension_request
           (Sample.response_to Sample.moz_extension_request) Sample.fresh);
    reflexivity.
Defined.

Lemma api_handler_skips_cache_for_other_methods_witness :
  result (handleAPIRequest Sample.online Sample.post_request) Sample.used
    = Resolved (default offline_error (Sample.online Sample.post_request)) ∧
  caches (run (handleAPIRequest Sample.online Sample.post_request) Sample.used)
    = caches Sample.used ∧
  trace (run (handleAPIRequest Sample.online Sample.post_request) Sample.used)
    = trace Sample.used ++ [Fetch (href (url Sample.post_request))].
Proof.
  apply (api_handler_skips_cache_for_other_methods Sample.online Sample.post_request
           Sample.used).
  reflexivity.
Defined.

(** An install during which one asset of the manifest cannot be fetched. *)
Lemma install_is_all_or_nothing_witness :
  (∀ name,
     Storage.entries name
       (caches (run (on_install Sample.flaky Sample.mkRequest) Sample.fresh))
     = Storage.entries name (caches Sample.fresh)) ∧
  is_Some (Storage.find STATIC_CACHE
             (caches (run (on_install Sample.flaky Sample.mkRequest) Sample.fresh))) ∧
  is_Some (Storage.find IMAGE_CACHE_NAME
             (caches (run (on_install Sample.flaky Sample.mkRequest) Sample.fresh))) ∧
  trace (run (on_install Sample.flaky Sample.mkRequest) Sample.fresh) =
    trace Sample.fresh ++
    [ CachesOpen STATIC_CACHE; CachesOpen IMAGE_CACHE_NAME;
      CacheAddAll STATIC_CACHE STATIC_ASSETS ] ++
    ((fun a => Fetch (href (url (Sample.mkRequest a)))) <$> STATIC_ASSETS).
Proof.
  apply (install_is_all_or_nothing Sample.flaky Sample.mkRequest
           "/components/ui/card.tsx" Sample.fresh).
  - do 4 apply list_elem_of_further. apply list_elem_of_here.
  - left. reflexivity.
Defined.

Lemma cache_size_reports_partition_sizes_witness :
  trace (run (on_message Sample.offline Sample.mkRequest Sample.get_cache_size)
             Sample.used) =
    trace Sample.used ++
    [ CachesOpen DYNAMIC_CACHE; CachesOpen IMAGE_CACHE_NAME;
      CacheKeys DYNAMIC_CACHE; CacheKeys IMAGE_CACHE_NAME;
      PostMessage (ToPort "port-2") (CacheSize 1 1 2) ] ∧
  ∀ name,
    Storage.entries name
      (caches (run (on_message Sample.offline Sample.mkRequest Sample.get_cache_size)
                   Sample.used))
    = Storage.entries name (caches Sample.used).
Proof.
  apply (cache_size_reports_partition_sizes Sample.offline Sample.mkRequest
           Sample.get_cache_size "port-2" Sample.used);
    reflexivity.
Defined.


Lemma failed_cache_recipe_stores_nothing_witness :
  (∀ name,
     Storage.entries name
       (caches (run (on_message Sample.offline Sample.mkRequest
                       (cacheResource_message "/recipes/42")) Sample.used))
     = Storage.entries name (caches Sample.used)) ∧
  Forall (fun e => match e with PostMessage _ _ => False | _ => True end)
         (drop (length (trace Sample.used))
               (trace (run (on_message Sample.offline Sample.mkRequest
                              (cacheResource_message "/recipes/42")) Sample.used))).
Proof.
  apply (failed_cache_recipe_stores_nothing Sample.offline Sample.mkRequest
           "/recipes/42" Sample.used).
  left. reflexivity.
Defined.

(** The third image of a batch whose second URL cannot be fetched. *)
Lemma preload_stores_each_fetched_image_witness :
  (∃ u' r',
     u' ∈ Sample.preload_urls ∧
     href (url (Sample.mkRequest u')) = href (url (Sample.mkRequest "/upload/b.png")) ∧
     Sample.flaky (Sample.mkRequest u') = Some r' ∧
     status r' = 200 ∧
     Storage.entries IMAGE_CACHE_NAME
       (caches (run (on_message Sample.flaky Sample.mkRequest Sample.preload_images)
                    Sample.fresh))
       !! href (url (Sample.mkRequest "/upload/b.png")) = Some r') ∧
  ∀ name, name ≠ IMAGE_CACHE_NAME →
    Storage.entries name
      (caches (run (on_message Sample.flaky Sample.mkRequest Sample.preload_images)
                   Sample.fresh))
    = Storage.entries name (caches Sample.fresh).
Proof.
  apply (preload_stores_each_fetched_image Sample.flaky Sample.mkRequest
           Sample.preload_images Sample.preload_payload Sample.preload_urls
           "/upload/b.png" (Sample.response_to (Sample.mkRequest "/upload/b.png"))
           Sample.fresh);
    try reflexivity.
  do 2 apply list_elem_of_further. apply list_elem_of_here.
Defined.

Lemma image_extensions_ignore_case_witness :
  isImageRequest (url Sample.api_cover_request) = true.
Proof.
  apply (image_extensions_ignore_case (url Sample.api_cover_request)
           "/api/recipes/7/cover" "JPG"); [|reflexivity].
  apply list_elem_of_here.
Defined.

(** The worlds after a first install followed by a navigation. *)
Lemma reachable_static_within_manifest_witness :
  Forall (fun key => ∃ u, u ∈ STATIC_ASSETS ∧ key = href (url (Sample.mkRequest u)))
    (map_to_list
       (Storage.entries STATIC_CACHE
          (caches (run (handle_event Sample.offline Sample.clock Sample.Date_getTime
                          Sample.mkRequest (FetchEvent Sample.page_request))
                       (run (handle_event Sample.online Sample.clock
                               Sample.Date_getTime Sample.mkRequest InstallEvent)
                            Sample.fresh))))).*1.
Proof.
  apply Forall_forall. intros key Hkey.
  apply (reachable_static_within_manifest Sample.clock Sample.Date_getTime
           Sample.mkRequest Sample.fresh
           (run (handle_event Sample.offline Sample.clock Sample.Date_getTime
                   Sample.mkRequest (FetchEvent Sample.page_request))
                (run (handle_event Sample.online Sample.clock Sample.Date_getTime
                        Sample.mkRequest InstallEvent) Sample.fresh))).
  - intros k Hk. change (is_Some ((∅ : Cache) !! k)) in Hk.
    rewrite lookup_empty in Hk. by apply is_Some_None in Hk.
  - do 2 apply reachable_event. apply reachable_start.
  - apply list_elem_of_fmap in Hkey as ([k r] & -> & Hin).
    apply elem_of_map_to_list in Hin. by eexists.
Defined.

Lemma reachable_partitions_are_current_witness :
  Forall (fun n => n ∈ CURRENT_CACHES)
    (Storage.keys
       (caches (run (handle_event Sample.online Sample.clock Sample.Date_getTime
                       Sample.mkRequest (FetchEvent Sample.page_request))
                    (run (handle_event Sample.online Sample.clock Sample.Date_getTime
                            Sample.mkRequest ActivateEvent)
                         Sample.used)))).
Proof.
  apply Forall_forall.
  apply (reachable_partitions_are_current Sample.clock Sample.Date_getTime
           Sample.mkRequest (run (handle_event Sample.online Sample.clock
                                    Sample.Date_getTime Sample.mkRequest ActivateEvent)
                                 Sample.used)).
  - apply Forall_forall. vm_compute. repeat constructor.
  - apply reachable_event, reachable_start.
Defined.
